(** * The GCS resource report poller

    A shallow embedding of [GcsResourceReportPoller]
    (src/ray/gcs/gcs_server/gcs_resource_report_poller.cc) and the
    properties of its scheduling loop.

    The poller keeps one [PullState] per node of the cluster, reachable
    through [nodes_] (node id to state) and through [to_pull_queue_] (a
    deque of states awaiting their pull).  Both hold
    [std::shared_ptr<PullState>]: the states live in a store and the two
    containers hold indices into it, so that the in-place update of
    [next_pull_time] is seen through every alias.

    The collaborators that the constructor injects are part of the world
    the poller runs in: the handlers posted to [polling_service_] and not
    yet run, the calls made to [request_report_] with the callbacks that are
    still to be invoked, and the calls made to [handle_resource_report_]. *)

From Stdlib Require Import ZArith Lia.
From stdpp Require Import gmap strings list fin_maps.

(** ** Machine integers *)

(** Modelled from the spec: the header that declares the members of the
    poller is not among the sources.  [inflight_pulls_] and
    [max_concurrent_pulls_], the in-flight counter and the admission bound
    of the spec, are taken as unsigned 64-bit counters; [++] and [--] wrap
    around. *)
Definition uint64_wrap (z : Z) : Z := (z mod 2 ^ 64)%Z.

(** Times are [int64_t] milliseconds, as [get_current_time_milli_]
    returns them; the sum in [NodeResourceReportReceived] is written with
    two's complement wrap-around. *)
Definition int64_wrap (z : Z) : Z := ((z + 2 ^ 63) mod 2 ^ 64 - 2 ^ 63)%Z.

Definition is_uint64 (z : Z) : Prop := (0 <= z < 2 ^ 64)%Z.

Definition is_int64 (z : Z) : Prop := (- 2 ^ 63 <= z < 2 ^ 63)%Z.

(** ** Messages *)

Module rpc.

(** Modelled from the spec: the messages are declared outside the
    sources.  [GcsNodeInfo] has the fields that [HandleNodeAdded] reads,
    [Address] those it sets: the node id and the endpoint of the spec. *)
Record GcsNodeInfo := {
  node_id : string;
  node_manager_address : string;
  node_manager_port : Z
}.

Record Address := {
  raylet_id : string;
  ip_address : string;
  port : Z
}.

(** The payload is opaque to the poller: it is only handed over. *)
Definition ResourcesData := string.

Record RequestResourceReportReply := {
  resources : ResourcesData
}.

End rpc.

(** Modelled from the spec: [Status] is declared outside the sources.
    It is taken as far as the callback looks at it, [ok()] and
    [ToString()]: success, or a failure with the text it prints. *)
Inductive Status :=
| StatusOK
| StatusError (text : string).

Definition ok (status : Status) : bool :=
  match status with
  | StatusOK => true
  | StatusError _ => false
  end.

Definition ToString (status : Status) : string :=
  match status with
  | StatusOK => "OK"
  | StatusError text => text
  end.

(** ** The poller's state *)

(** Modelled from the spec: [NodeID] is declared outside the sources.  It
    is the stable unique identifier of a node; [NodeID::FromBinary] wraps
    the binary string of the message. *)
Definition NodeID := string.

Definition FromBinary (binary : string) : NodeID := binary.

(** Modelled from the spec: [PullState] is declared in the header.  Its
    fields are those of the constructor call in [HandleNodeAdded]: the
    node id, the address and the time of the next pull. *)
Record PullState := {
  node_id : NodeID;
  address : rpc.Address;
  next_pull_time : Z
}.

(** The value [-1] of [next_pull_time] asks for a full report. *)
Definition unset : Z := (-1)%Z.

(** A [std::shared_ptr<PullState>] is an index into the store. *)
Definition ptr := nat.

Definition null_state : PullState :=
  {| node_id := ""; address := rpc.Build_Address "" "" 0; next_pull_time := unset |}.

#[global] Instance PullState_inhabited : Inhabited PullState := populate null_state.

(** A handler posted to [polling_service_]. *)
Inductive Task :=
| TaskTryPull
| TaskReceived (state : ptr) (need_full_report : bool).

(** One call of [request_report_]: the state captured by its callback, the
    address and the [initial_report] flag. *)
Record Request := {
  req_state : ptr;
  req_address : rpc.Address;
  req_initial_report : bool
}.

Record World := {
  (* GcsResourceReportPoller *)
  max_concurrent_pulls_ : Z;
  poll_period_ms_ : Z;
  inflight_pulls_ : Z;
  nodes_ : gmap string ptr;
  to_pull_queue_ : list ptr;
  (* the PullState objects *)
  store : list PullState;
  (* polling_service_: handlers posted and not yet run *)
  polling_service_ : list Task;
  (* request_report_: every call made, and the callbacks not yet invoked *)
  request_report_calls : list Request;
  pending_callbacks : list ptr;
  (* handle_resource_report_: every report handed over *)
  handle_resource_report_calls : list rpc.ResourcesData
}.

(** The constructor. *)
Definition GcsResourceReportPoller (gcs_max_concurrent_resource_pulls
                                     gcs_resource_report_poll_period_ms : Z) : World :=
  {| max_concurrent_pulls_ := gcs_max_concurrent_resource_pulls;
     poll_period_ms_ := gcs_resource_report_poll_period_ms;
     inflight_pulls_ := 0;
     nodes_ := ∅;
     to_pull_queue_ := [];
     store := [];
     polling_service_ := [];
     request_report_calls := [];
     pending_callbacks := [];
     handle_resource_report_calls := [] |}.

(** A [RAY_CHECK] that fails terminates the process. *)
Inductive result (A : Type) :=
| Ok (a : A)
| Fatal (message : string).

Arguments Ok {A} a.

Arguments Fatal {A} message.

(** [nodes_.count(node_id)] as a test. *)
Definition count (nodes : gmap string ptr) (id : NodeID) : bool :=
  bool_decide (is_Some (nodes !! id)).

(** [polling_service_.post(handler)] *)
Definition post (t : Task) (w : World) : World :=
  {| max_concurrent_pulls_ := max_concurrent_pulls_ w;
     poll_period_ms_ := poll_period_ms_ w;
     inflight_pulls_ := inflight_pulls_ w;
     nodes_ := nodes_ w;
     to_pull_queue_ := to_pull_queue_ w;
     store := store w;
     polling_service_ := polling_service_ w ++ [t];
     request_report_calls := request_report_calls w;
     pending_callbacks := pending_callbacks w;
     handle_resource_report_calls := handle_resource_report_calls w |}.

(** ** Membership *)

Definition HandleNodeAdded (node_info : rpc.GcsNodeInfo) (w : World) : result World :=
  let address :=
    {| rpc.raylet_id := rpc.node_id node_info;
       rpc.ip_address := rpc.node_manager_address node_info;
       rpc.port := rpc.node_manager_port node_info |} in
  (* std::make_shared<PullState>(..., -1) *)
  let state : ptr := length (store w) in
  let new_state :=
    {| node_id := FromBinary (rpc.node_id node_info);
       address := address;
       next_pull_time := unset |} in
  let id := node_id new_state in
  if count (nodes_ w) id then
    Fatal "Node was added twice!"
  else
    Ok (post TaskTryPull
          {| max_concurrent_pulls_ := max_concurrent_pulls_ w;
             poll_period_ms_ := poll_period_ms_ w;
             inflight_pulls_ := inflight_pulls_ w;
             nodes_ := <[id := state]> (nodes_ w);
             to_pull_queue_ := state :: to_pull_queue_ w;
             store := store w ++ [new_state];
             polling_service_ := polling_service_ w;
             request_report_calls := request_report_calls w;
             pending_callbacks := pending_callbacks w;
             handle_resource_report_calls := handle_resource_report_calls w |}).

Definition HandleNodeRemoved (node_info : rpc.GcsNodeInfo) (w : World) : result World :=
  let id := FromBinary (rpc.node_id node_info) in
  let nodes := delete id (nodes_ w) in
  if count nodes id then
    Fatal "Check failed: !nodes_.count(node_id)"
  else
    Ok {| max_concurrent_pulls_ := max_concurrent_pulls_ w;
          poll_period_ms_ := poll_period_ms_ w;
          inflight_pulls_ := inflight_pulls_ w;
          nodes_ := nodes;
          to_pull_queue_ := to_pull_queue_ w;
          store := store w;
          polling_service_ := polling_service_ w;
          request_report_calls := request_report_calls w;
          pending_callbacks := pending_callbacks w;
          handle_resource_report_calls := handle_resource_report_calls w |}.

(** [Initialize]: one [HandleNodeAdded] per node of the snapshot. *)
Fixpoint Initialize (nodes : list rpc.GcsNodeInfo) (w : World) : result World :=
  match nodes with
  | [] => Ok w
  | node_info :: rest =>
      match HandleNodeAdded node_info w with
      | Ok w' => Initialize rest w'
      | Fatal message => Fatal message
      end
  end.

(** ** Pulling *)

Definition PullResourceReport (state : ptr) (w : World) : World :=
  let initial_report := (next_pull_time (store w !!! state) =? unset)%Z in
  {| max_concurrent_pulls_ := max_concurrent_pulls_ w;
     poll_period_ms_ := poll_period_ms_ w;
     inflight_pulls_ := uint64_wrap (inflight_pulls_ w + 1);
     nodes_ := nodes_ w;
     to_pull_queue_ := to_pull_queue_ w;
     store := store w;
     polling_service_ := polling_service_ w;
     request_report_calls :=
       request_report_calls w ++
         [{| req_state := state;
             req_address := address (store w !!! state);
             req_initial_report := initial_report |}];
     pending_callbacks := pending_callbacks w ++ [state];
     handle_resource_report_calls := handle_resource_report_calls w |}.

(** [to_pull_queue_.pop_front()] *)
Definition pop_front (w : World) : World :=
  {| max_concurrent_pulls_ := max_concurrent_pulls_ w;
     poll_period_ms_ := poll_period_ms_ w;
     inflight_pulls_ := inflight_pulls_ w;
     nodes_ := nodes_ w;
     to_pull_queue_ := tail (to_pull_queue_ w);
     store := store w;
     polling_service_ := polling_service_ w;
     request_report_calls := request_report_calls w;
     pending_callbacks := pending_callbacks w;
     handle_resource_report_calls := handle_resource_report_calls w |}.

(** One turn of the [while] loop of [TryPullResourceReport]: [None] when
    the loop is left (its condition is false, or [break]), the world after
    the turn otherwise. *)
Definition TryPull_iteration (cur_time : Z) (w : World) : option World :=
  if (inflight_pulls_ w <? max_concurrent_pulls_ w)%Z then
    match to_pull_queue_ w with
    | [] => None
    | to_pull :: _ =>
        if (cur_time <? next_pull_time (store w !!! to_pull))%Z then None
        else
          let w1 := pop_front w in
          if negb (count (nodes_ w1) (node_id (store w1 !!! to_pull))) then Some w1
          else Some (PullResourceReport to_pull w1)
    end
  else None.

Fixpoint TryPull_loop (fuel : nat) (cur_time : Z) (w : World) : World :=
  match fuel with
  | O => w
  | S fuel' =>
      match TryPull_iteration cur_time w with
      | None => w
      | Some w' => TryPull_loop fuel' cur_time w'
      end
  end.

(** Every turn pops one entry, so the length of the queue bounds the
    number of turns ([TryPull_terminates] below). *)
Definition TryPullResourceReport (cur_time : Z) (w : World) : World :=
  TryPull_loop (length (to_pull_queue_ w)) cur_time w.

(** The callback handed to [request_report_], with the [state] it
    captured. *)
Definition request_report_callback (state : ptr) (status : Status)
    (reply : rpc.RequestResourceReportReply) (w : World) : World :=
  if ok status then
    post (TaskReceived state false)
      {| max_concurrent_pulls_ := max_concurrent_pulls_ w;
         poll_period_ms_ := poll_period_ms_ w;
         inflight_pulls_ := inflight_pulls_ w;
         nodes_ := nodes_ w;
         to_pull_queue_ := to_pull_queue_ w;
         store := store w;
         polling_service_ := polling_service_ w;
         request_report_calls := request_report_calls w;
         pending_callbacks := pending_callbacks w;
         handle_resource_report_calls :=
           handle_resource_report_calls w ++ [rpc.resources reply] |}
  else if String.eqb (ToString status) "Resources not changed" then
    post (TaskReceived state false) w
  else
    post (TaskReceived state true) w.

Definition NodeResourceReportReceived (state : ptr) (need_full_report : bool)
    (now : Z) (w : World) : World :=
  let next :=
    if need_full_report then unset
    else int64_wrap (now + poll_period_ms_ w) in
  let st := store w !!! state in
  post TaskTryPull
    {| max_concurrent_pulls_ := max_concurrent_pulls_ w;
       poll_period_ms_ := poll_period_ms_ w;
       inflight_pulls_ := uint64_wrap (inflight_pulls_ w - 1);
       nodes_ := nodes_ w;
       to_pull_queue_ := to_pull_queue_ w ++ [state];
       store :=
         <[state := {| node_id := node_id st;
                       address := address st;
                       next_pull_time := next |}]> (store w);
       polling_service_ := polling_service_ w;
       request_report_calls := request_report_calls w;
       pending_callbacks := pending_callbacks w;
       handle_resource_report_calls := handle_resource_report_calls w |}.

(** ** Events *)

(** What can happen to a started poller.  [now] is what
    [get_current_time_milli_] returns during the handler. *)
Inductive Event :=
| NodeAdded (node_info : rpc.GcsNodeInfo)
| NodeRemoved (node_info : rpc.GcsNodeInfo)
| Tick (now : Z)
| Reply (k : nat) (status : Status) (reply : rpc.RequestResourceReportReply)
| RunPosted (k : nat) (now : Z).

Definition take_posted (k : nat) (w : World) : World :=
  {| max_concurrent_pulls_ := max_concurrent_pulls_ w;
     poll_period_ms_ := poll_period_ms_ w;
     inflight_pulls_ := inflight_pulls_ w;
     nodes_ := nodes_ w;
     to_pull_queue_ := to_pull_queue_ w;
     store := store w;
     polling_service_ := delete k (polling_service_ w);
     request_report_calls := request_report_calls w;
     pending_callbacks := pending_callbacks w;
     handle_resource_report_calls := handle_resource_report_calls w |}.

Definition take_callback (k : nat) (w : World) : World :=
  {| max_concurrent_pulls_ := max_concurrent_pulls_ w;
     poll_period_ms_ := poll_period_ms_ w;
     inflight_pulls_ := inflight_pulls_ w;
     nodes_ := nodes_ w;
     to_pull_queue_ := to_pull_queue_ w;
     store := store w;
     polling_service_ := polling_service_ w;
     request_report_calls := request_report_calls w;
     pending_callbacks := delete k (pending_callbacks w);
     handle_resource_report_calls := handle_resource_report_calls w |}.

Definition run_task (t : Task) (now : Z) (w : World) : World :=
  match t with
  | TaskTryPull => TryPullResourceReport now w
  | TaskReceived state need_full_report =>
      NodeResourceReportReceived state need_full_report now w
  end.

(** - [Tick]: the ticker armed by [Start] calls [TryPullResourceReport];
    - [Reply k]: the transport invokes the callback of the [k]-th request
      that is still open, once;
    - [RunPosted k]: [polling_service_] runs the [k]-th handler posted to
      it.
    An index out of range is an event that cannot happen: nothing
    changes. *)
Definition step (w : World) (e : Event) : result World :=
  match e with
  | NodeAdded node_info => HandleNodeAdded node_info w
  | NodeRemoved node_info => HandleNodeRemoved node_info w
  | Tick now => Ok (TryPullResourceReport now w)
  | Reply k status reply =>
      match pending_callbacks w !! k with
      | Some state => Ok (request_report_callback state status reply (take_callback k w))
      | None => Ok w
      end
  | RunPosted k now =>
      match polling_service_ w !! k with
      | Some t => Ok (run_task t now (take_posted k w))
      | None => Ok w
      end
  end.

Fixpoint run (w : World) (events : list Event) : result World :=
  match events with
  | [] => Ok w
  | e :: rest =>
      match step w e with
      | Ok w' => run w' rest
      | Fatal message => Fatal message
      end
  end.

(** The worlds a poller can be in: built by the constructor from a
    configuration, then driven by events. *)
Definition reachable (w : World) : Prop :=
  ∃ max period history,
    is_uint64 max ∧ run (GcsResourceReportPoller max period) history = Ok w.

(** ** Held states and scans *)

(** The states captured by the posted [NodeResourceReportReceived]. *)
Fixpoint received_states (tasks : list Task) : list ptr :=
  match tasks with
  | [] => []
  | TaskTryPull :: rest => received_states rest
  | TaskReceived state _ :: rest => state :: received_states rest
  end.

(** The states whose pull is in flight: requested, and either the
    callback has not been invoked yet or its
    [NodeResourceReportReceived] is posted and has not run. *)
Definition inflight_states (w : World) : list ptr :=
  pending_callbacks w ++ received_states (polling_service_ w).

(** The states that somebody holds. *)
Definition queued_or_inflight (w : World) : list ptr :=
  to_pull_queue_ w ++ inflight_states w.

(** [state->node_id] *)
Definition state_node (w : World) (p : ptr) : NodeID := node_id (store w !!! p).

(** The test of the scan: [nodes_.count(to_pull->node_id)]. *)
Definition registered (w : World) (p : ptr) : Prop :=
  is_Some (nodes_ w !! state_node w p).

(** The call of [request_report_] that [PullResourceReport] makes. *)
Definition request_of (w : World) (p : ptr) : Request :=
  {| req_state := p;
     req_address := address (store w !!! p);
     req_initial_report := (next_pull_time (store w !!! p) =? unset)%Z |}.

(** [scanned cur_time w w' popped]: a scan at [cur_time] took [w] to [w']
    by popping [popped] off the front of the queue, all of them due, and
    pulling those that are still registered. *)
Record scanned (cur_time : Z) (w w' : World) (popped : list ptr) : Prop := {
  scan_max : max_concurrent_pulls_ w' = max_concurrent_pulls_ w;
  scan_period : poll_period_ms_ w' = poll_period_ms_ w;
  scan_nodes : nodes_ w' = nodes_ w;
  scan_store : store w' = store w;
  scan_posted : polling_service_ w' = polling_service_ w;
  scan_reports : handle_resource_report_calls w' = handle_resource_report_calls w;
  scan_queue : to_pull_queue_ w = popped ++ to_pull_queue_ w';
  scan_due : Forall (λ p, (next_pull_time (store w !!! p) <= cur_time)%Z) popped;
  scan_requests :
    request_report_calls w' =
      request_report_calls w ++ (request_of w <$> filter (registered w) popped);
  scan_callbacks :
    pending_callbacks w' = pending_callbacks w ++ filter (registered w) popped;
  scan_inflight :
    inflight_pulls_ w' =
      (inflight_pulls_ w + Z.of_nat (length (filter (registered w) popped)))%Z;
  scan_budget :
    (inflight_pulls_ w <= max_concurrent_pulls_ w)%Z →
    (inflight_pulls_ w' <= max_concurrent_pulls_ w')%Z
}.

(** [inflight_pulls_] counts the pulls in flight, stays within
    [max_concurrent_pulls_], and every state is held at most once: by the
    queue, by a callback, or by a posted handler. *)
Record Inv (w : World) : Prop := {
  inv_max : is_uint64 (max_concurrent_pulls_ w);
  inv_count : inflight_pulls_ w = Z.of_nat (length (inflight_states w));
  inv_bound : (inflight_pulls_ w <= max_concurrent_pulls_ w)%Z;
  inv_nodup : NoDup (queued_or_inflight w);
  inv_valid : Forall (λ p, p < length (store w)) (queued_or_inflight w)
}.

(** ** Following one state through a run *)

(** The calls of [request_report_] made between [w] and a later [w']. *)
Definition new_requests (w w' : World) : list Request :=
  drop (length (request_report_calls w)) (request_report_calls w').

(** The pulls of one state among some requests, oldest first. *)
Definition pulls_of (state : ptr) (requests : list Request) : list Request :=
  filter (λ r, req_state r = state) requests.

(** What [get_current_time_milli_] returned during the events. *)
Definition clock_reading (e : Event) : option Z :=
  match e with
  | Tick now | RunPosted _ now => Some now
  | _ => None
  end.

Definition clock_readings (events : list Event) : list Z := omap clock_reading events.

(** A state that was made and is held by nobody any more. *)
Definition gone (w : World) (p : ptr) : Prop :=
  p < length (store w) ∧ p ∉ queued_or_inflight w.

(** A step either leaves the queued states and the requests alone, or it
    is a scan. *)
Definition quiet_step (w w1 : World) : Prop :=
  request_report_calls w1 = request_report_calls w ∧
  (∀ p, p ∈ to_pull_queue_ w →
        p ∈ to_pull_queue_ w1 ∧ store w1 !!! p = store w !!! p) ∧
  (∀ p, gone w p → gone w1 p) ∧
  (∀ p, p ∈ queued_or_inflight w → p ∈ queued_or_inflight w1).

(** A scan, as seen from the world before it. *)
Definition scan_step (now : Z) (popped : list ptr) (w w1 : World) : Prop :=
  to_pull_queue_ w = popped ++ to_pull_queue_ w1 ∧
  store w1 = store w ∧
  Forall (λ p, (next_pull_time (store w !!! p) <= now)%Z) popped ∧
  request_report_calls w1 =
    request_report_calls w ++ (request_of w <$> filter (registered w) popped) ∧
  queued_or_inflight w1 ≡ₚ
    to_pull_queue_ w1 ++ filter (registered w) popped ++ inflight_states w.

(** [NodeAdded] events for one node id. *)
Definition adds (id : NodeID) (e : Event) : Prop :=
  match e with
  | NodeAdded node_info => FromBinary (rpc.node_id node_info) = id
  | _ => False
  end.

(** ** One entry per node *)

(** The entries of a node id in the queue, and its pulls in flight. *)
Definition queued_for (w : World) (id : NodeID) : list ptr :=
  filter (λ p, state_node w p = id) (to_pull_queue_ w).

Definition inflight_for (w : World) (id : NodeID) : list ptr :=
  filter (λ p, state_node w p = id) (inflight_states w).

(** A [NodeAdded] that finds no entry of its node id left over, in the
    queue or in flight, from an earlier registration. *)
Definition add_is_fresh (w : World) (e : Event) : Prop :=
  match e with
  | NodeAdded node_info =>
      FromBinary (rpc.node_id node_info) ∉ (state_node w <$> queued_or_inflight w)
  | _ => True
  end.

Fixpoint adds_are_fresh (w : World) (events : list Event) : Prop :=
  match events with
  | [] => True
  | e :: rest =>
      add_is_fresh w e ∧
      match step w e with
      | Ok w' => adds_are_fresh w' rest
      | Fatal _ => True
      end
  end.

#[global] Instance add_is_fresh_dec w e : Decision (add_is_fresh w e).
Proof. destruct e; simpl; apply _. Defined.

#[global] Instance adds_are_fresh_dec w events : Decision (adds_are_fresh w events).
Proof.
  revert w. induction events as [|e events IH]; intros w; simpl; [apply _|].
  destruct (step w e); apply _.
Defined.

(** The registered state of a node is held, and it is the only entry of
    that node. *)
Record Excl (w : World) : Prop := {
  excl_registered :
    ∀ id p, nodes_ w !! id = Some p →
            state_node w p = id ∧ p ∈ queued_or_inflight w;
  excl_held :
    ∀ p q, p ∈ queued_or_inflight w →
           nodes_ w !! state_node w p = Some q → q = p
}.

(** ** A small cluster to run the poller on *)

Definition node_a : rpc.GcsNodeInfo :=
  {| rpc.node_id := "a"; rpc.node_manager_address := "10.0.0.1";
     rpc.node_manager_port := 7001 |}.

Definition node_b : rpc.GcsNodeInfo :=
  {| rpc.node_id := "b"; rpc.node_manager_address := "10.0.0.2";
     rpc.node_manager_port := 7002 |}.

Definition report_a : rpc.RequestResourceReportReply :=
  {| rpc.resources := "CPU: 4" |}.

(** The world at the end of a run that no [RAY_CHECK] stops. *)
Definition world_after (w : World) (events : list Event) : World :=
  match run w events with
  | Ok w' => w'
  | Fatal _ => w
  end.

(** Two nodes, both pulled by the first scan. *)
Definition both_pulled : list Event :=
  [NodeAdded node_a; NodeAdded node_b; Tick 5].

(** Node [a] is removed while its entry is queued, node [b] is queued
    behind it. *)
Definition removed_while_queued : list Event :=
  [NodeAdded node_b; NodeAdded node_a; NodeRemoved node_a].

(** Node [a] is pulled, removed while the pull is in flight, and replies. *)
Definition removed_while_in_flight : list Event :=
  [NodeAdded node_a; Tick 5; NodeRemoved node_a; Reply 0 StatusOK report_a].

(** Node [a] is added and pulled; its request is open. *)
Definition pull_open : list Event := [NodeAdded node_a; Tick 5].

(** After a node was added: it is pulled, replies, and its handler runs
    at time 9. *)
Definition pulled_once : list Event :=
  [Tick 5; Reply 0 StatusOK report_a; RunPosted 1 9].

(** Node [a] is added, removed while its entry is queued, and added
    again before a scan has dropped the entry. *)
Definition added_again : list Event :=
  [NodeAdded node_a; NodeRemoved node_a; NodeAdded node_a; Tick 5].

(** Node [a] is added, removed while queued, and added again once a
    scan has dropped its entry. *)
Definition added_again_later : list Event :=
  [NodeAdded node_a; NodeRemoved node_a; Tick 5; NodeAdded node_a; Tick 6].

(** ** When a scan has nothing to do *)

(** The loop of [TryPullResourceReport] is not entered, or left at its
    first turn: no budget, an empty queue, or a front entry that is not
    due yet. *)
Definition scan_blocked (cur_time : Z) (w : World) : Prop :=
  (max_concurrent_pulls_ w <= inflight_pulls_ w)%Z ∨
  to_pull_queue_ w = [] ∨
  ∃ p rest, to_pull_queue_ w = p :: rest ∧
            (cur_time < next_pull_time (store w !!! p))%Z.

(** The budget of a scan: how many pulls it may still start. *)
Definition budget (w : World) : nat :=
  Z.to_nat (max_concurrent_pulls_ w - inflight_pulls_ w).

(** The state that [HandleNodeAdded] makes for a node. *)
Definition new_pull_state (node_info : rpc.GcsNodeInfo) : PullState :=
  {| node_id := FromBinary (rpc.node_id node_info);
     address :=
       {| rpc.raylet_id := rpc.node_id node_info;
          rpc.ip_address := rpc.node_manager_address node_info;
          rpc.port := rpc.node_manager_port node_info |};
     next_pull_time := unset |}.

(** ** What the states and the requests keep *)

(** A state carries the address of its own node: [HandleNodeAdded] sets
    [raylet_id] from the node id it registers. *)
Definition well_addressed (st : PullState) : Prop :=
  FromBinary (rpc.raylet_id (address st)) = node_id st.

(** A request was made for a state that exists, with the address that
    the state carries. *)
Definition request_matches (w : World) (r : Request) : Prop :=
  req_state r < length (store w) ∧
  req_address r = address (store w !!! req_state r).

(** The registered state of every node is the state of that node, and
    somebody holds it. *)
Definition registered_held (w : World) : Prop :=
  ∀ id p, nodes_ w !! id = Some p →
          state_node w p = id ∧ p ∈ queued_or_inflight w.

(** The node ids of a snapshot, in the order [Initialize] visits it. *)
Definition snapshot_ids (nodes : list rpc.GcsNodeInfo) : list NodeID :=
  (λ node_info, FromBinary (rpc.node_id node_info)) <$> nodes.

(** A snapshot that [Initialize] can take in: no node id twice, none
    registered already. *)
Definition fresh_snapshot (nodes : list rpc.GcsNodeInfo) (w : World) : Prop :=
  NoDup (snapshot_ids nodes) ∧
  Forall (λ id, nodes_ w !! id = None) (snapshot_ids nodes).

(** ** The pub/sub handler

    [InternalPubSubHandler::HandleGcsSubscriberCommandBatch] (the second
    source file) hands the commands of a batch to the publisher and
    replies.  The publisher is a collaborator: the handler is followed by
    the calls it makes on it and by the replies it sends. *)

Module pubsub.

(** Modelled from the spec: the messages are declared outside the
    sources.  A command has the fields the handler reads; its
    [command_message_one_of] holds an unsubscribe message, a subscribe
    message, or nothing. *)
Inductive CommandMessageOneOfCase :=
| COMMAND_MESSAGE_ONE_OF_NOT_SET
| kUnsubscribeMessage
| kSubscribeMessage.

Record Command := {
  channel_type : Z;
  key_id : string;
  command_message_one_of_case : CommandMessageOneOfCase
}.

Record GcsSubscriberCommandBatchRequest := {
  subscriber_id : string;
  commands : list Command
}.

(** The calls the handler makes on [gcs_publisher_->GetPublisher()]. *)
Inductive PublisherCall :=
| UnregisterSubscription (channel : Z) (subscriber : string) (key : option string)
| RegisterSubscription (channel : Z) (subscriber : string) (key : option string).

End pubsub.

Definition has_unsubscribe_message (command : pubsub.Command) : bool :=
  match pubsub.command_message_one_of_case command with
  | pubsub.kUnsubscribeMessage => true
  | _ => false
  end.

Definition has_subscribe_message (command : pubsub.Command) : bool :=
  match pubsub.command_message_one_of_case command with
  | pubsub.kSubscribeMessage => true
  | _ => false
  end.

(** [command.key_id().empty() ? std::nullopt
                              : std::make_optional(command.key_id())] *)
Definition optional_key_id (command : pubsub.Command) : option string :=
  match pubsub.key_id command with
  | EmptyString => None
  | key => Some key
  end.

Record InternalPubSubHandler := {
  publisher_calls : list pubsub.PublisherCall;
  sent_replies : list Status
}.

(** One turn of the loop over [request.commands()]. *)
Definition handle_command (subscriber_id : string) (command : pubsub.Command)
    (h : InternalPubSubHandler) : result InternalPubSubHandler :=
  if has_unsubscribe_message command then
    Ok {| publisher_calls :=
            publisher_calls h ++
              [pubsub.UnregisterSubscription (pubsub.channel_type command)
                 subscriber_id (optional_key_id command)];
          sent_replies := sent_replies h |}
  else if has_subscribe_message command then
    Ok {| publisher_calls :=
            publisher_calls h ++
              [pubsub.RegisterSubscription (pubsub.channel_type command)
                 subscriber_id (optional_key_id command)];
          sent_replies := sent_replies h |}
  else
    Fatal "Invalid command has received".

Fixpoint handle_commands (subscriber_id : string) (commands : list pubsub.Command)
    (h : InternalPubSubHandler) : result InternalPubSubHandler :=
  match commands with
  | [] => Ok h
  | command :: rest =>
      match handle_command subscriber_id command h with
      | Ok h' => handle_commands subscriber_id rest h'
      | Fatal message => Fatal message
      end
  end.

Definition HandleGcsSubscriberCommandBatch
    (request : pubsub.GcsSubscriberCommandBatchRequest)
    (h : InternalPubSubHandler) : result InternalPubSubHandler :=
  (* UniqueID::FromBinary(request.subscriber_id()) *)
  let subscriber_id := pubsub.subscriber_id request in
  match handle_commands subscriber_id (pubsub.commands request) h with
  | Ok h' =>
      (* send_reply_callback(Status::OK(), nullptr, nullptr) *)
      Ok {| publisher_calls := publisher_calls h';
            sent_replies := sent_replies h' ++ [StatusOK] |}
  | Fatal message => Fatal message
  end.

(** The call the handler makes for a command that holds a message. *)
Definition call_for (subscriber_id : string) (command : pubsub.Command)
    : pubsub.PublisherCall :=
  if has_unsubscribe_message command then
    pubsub.UnregisterSubscription (pubsub.channel_type command) subscriber_id
      (optional_key_id command)
  else
    pubsub.RegisterSubscription (pubsub.channel_type command) subscriber_id
      (optional_key_id command).

(** The payload of a reply that the callback hands over: that of a reply
    with status ok. *)
Definition ok_payload (e : Event) : option rpc.ResourcesData :=
  match e with
  | Reply _ StatusOK reply => Some (rpc.resources reply)
  | _ => None
  end.

(** ** Requests, seen from a node *)

(** The requests that went to one node: those whose address carries its
    id. *)
Definition requests_to (id : NodeID) (requests : list Request) : list Request :=
  filter (λ r, FromBinary (rpc.raylet_id (req_address r)) = id) requests.

(** No other entry of the node of [p] is queued or in flight. *)
Definition sole_entry (w : World) (p : ptr) : Prop :=
  ∀ q, q ∈ queued_or_inflight w → state_node w q = state_node w p → q = p.

#[global] Instance sole_entry_dec w p : Decision (sole_entry w p).
Proof.
  refine (cast_if (decide (Forall (λ q, state_node w q = state_node w p → q = p)
                             (queued_or_inflight w))));
    unfold sole_entry; by rewrite Forall_forall in *.
Defined.


(** ** More runs of the small cluster *)



(** Node [a] is added, removed and added again while its first entry is
    queued; with room for one pull, the scan pulls the new state, and
    that pull succeeds. *)
Definition stale_entry_behind : list Event :=
  [NodeAdded node_a; NodeRemoved node_a; NodeAdded node_a; Tick 5;
   Reply 0 StatusOK report_a].

(** Node [a] is pulled at clock reading -1, and the pull succeeds. *)
Definition pulled_before_epoch : list Event :=
  [NodeAdded node_a; Tick (-1); Reply 0 StatusOK report_a].

(** Node [a] is added, removed while its entry is queued, and added
    again: both entries are queued. *)
Definition added_again_queued : list Event :=
  [NodeAdded node_a; NodeRemoved node_a; NodeAdded node_a].

(** Node [b] and node [a] are added: both are queued, [a] in front. *)
Definition both_queued : list Event := [NodeAdded node_b; NodeAdded node_a].

(** ** Integers and the registry *)

Lemma uint64_wrap_small z : is_uint64 z → uint64_wrap z = z.
Proof. unfold is_uint64, uint64_wrap. intros H. apply Z.mod_small. lia. Qed.

Lemma int64_wrap_small z : is_int64 z → int64_wrap z = z.
Proof.
  unfold is_int64, int64_wrap. intros H.
  rewrite Z.mod_small; lia.
Qed.

Lemma count_true nodes id : count nodes id = true ↔ is_Some (nodes !! id).
Proof. unfold count. apply bool_decide_eq_true. Qed.

Lemma count_false nodes id : count nodes id = false ↔ nodes !! id = None.
Proof.
  unfold count. rewrite bool_decide_eq_false, <- eq_None_not_Some. done.
Qed.

(** ** What a scan does *)

Lemma scanned_nil cur_time w : scanned cur_time w w [].
Proof.
  split; simpl; try done.
  - by rewrite app_nil_r.
  - by rewrite app_nil_r.
  - lia.
Qed.

Lemma TryPull_iteration_scanned cur_time w w' :
  is_uint64 (max_concurrent_pulls_ w) →
  (0 <= inflight_pulls_ w)%Z →
  TryPull_iteration cur_time w = Some w' →
  ∃ p, scanned cur_time w w' [p].
Proof.
  intros Hmax Hpos. unfold TryPull_iteration.
  destruct (Z.ltb_spec (inflight_pulls_ w) (max_concurrent_pulls_ w)) as [Hlt|]; [|done].
  destruct (to_pull_queue_ w) as [|p q] eqn:Hq; [done|].
  destruct (Z.ltb_spec cur_time (next_pull_time (store w !!! p))) as [|Hdue]; [done|].
  simpl. destruct (count (nodes_ w) (node_id (store w !!! p))) eqn:Hc; simpl;
    intros [= <-]; exists p.
  - apply count_true in Hc.
    split; simpl; rewrite ?Hq; try done.
    + by repeat constructor.
    + rewrite filter_cons_True by done. done.
    + rewrite filter_cons_True by done. done.
    + rewrite filter_cons_True by done. simpl.
      rewrite uint64_wrap_small; [lia|]. unfold is_uint64 in *. lia.
    + intros _. rewrite uint64_wrap_small; [lia|]. unfold is_uint64 in *. lia.
  - apply count_false in Hc.
    assert (¬ registered w p) as Hn.
    { unfold registered, state_node. rewrite Hc. by intros [? ?]. }
    split; simpl; rewrite ?Hq; try done.
    + by repeat constructor.
    + rewrite filter_cons_False by done. simpl. by rewrite app_nil_r.
    + rewrite filter_cons_False by done. simpl. by rewrite app_nil_r.
    + rewrite filter_cons_False by done. simpl. lia.
Qed.

Lemma scanned_trans cur_time w w1 w2 l1 l2 :
  scanned cur_time w w1 l1 → scanned cur_time w1 w2 l2 →
  scanned cur_time w w2 (l1 ++ l2).
Proof.
  intros [] [].
  assert (filter (registered w1) l2 = filter (registered w) l2) as Hreg.
  { apply list_filter_iff. intros p.
    unfold registered, state_node. by rewrite scan_nodes0, scan_store0. }
  assert (request_of w1 = request_of w) as Hreq.
  { unfold request_of. by rewrite scan_store0. }
  split; try congruence.
  - rewrite scan_queue0, scan_queue1. by rewrite app_assoc.
  - apply Forall_app. split; [done|]. by rewrite <- scan_store0.
  - rewrite scan_requests1, scan_requests0, Hreg, Hreq.
    by rewrite filter_app, fmap_app, app_assoc.
  - rewrite scan_callbacks1, scan_callbacks0, Hreg.
    by rewrite filter_app, app_assoc.
  - rewrite scan_inflight1, scan_inflight0, Hreg.
    rewrite filter_app, length_app. lia.
  - intros H. apply scan_budget1. by apply scan_budget0.
Qed.

Lemma scanned_inflight_nonneg cur_time w w' l :
  scanned cur_time w w' l → (0 <= inflight_pulls_ w)%Z → (0 <= inflight_pulls_ w')%Z.
Proof. intros [] ?. lia. Qed.

Lemma TryPull_loop_scanned fuel cur_time w :
  is_uint64 (max_concurrent_pulls_ w) →
  (0 <= inflight_pulls_ w)%Z →
  ∃ popped, scanned cur_time w (TryPull_loop fuel cur_time w) popped.
Proof.
  revert w. induction fuel as [|fuel IH]; intros w Hmax Hpos; simpl.
  { exists []. apply scanned_nil. }
  destruct (TryPull_iteration cur_time w) as [w1|] eqn:Hit.
  - destruct (TryPull_iteration_scanned _ _ _ Hmax Hpos Hit) as [p Hp].
    destruct (IH w1) as [l Hl].
    + by rewrite (scan_max _ _ _ _ Hp).
    + by eapply scanned_inflight_nonneg.
    + exists ([p] ++ l). by eapply scanned_trans.
  - exists []. apply scanned_nil.
Qed.

Lemma TryPullResourceReport_scanned cur_time w :
  is_uint64 (max_concurrent_pulls_ w) →
  (0 <= inflight_pulls_ w)%Z →
  ∃ popped, scanned cur_time w (TryPullResourceReport cur_time w) popped.
Proof. apply TryPull_loop_scanned. Qed.

(** The loop is left within the fuel it is given. *)
Lemma TryPull_iteration_shrinks cur_time w w' :
  TryPull_iteration cur_time w = Some w' →
  length (to_pull_queue_ w) = S (length (to_pull_queue_ w')).
Proof.
  unfold TryPull_iteration.
  destruct (inflight_pulls_ w <? max_concurrent_pulls_ w)%Z; [|done].
  destruct (to_pull_queue_ w) as [|p q] eqn:Hq; [done|].
  destruct (cur_time <? next_pull_time (store w !!! p))%Z; [done|].
  destruct (negb _); intros [= <-]; simpl; by rewrite Hq.
Qed.

Lemma TryPull_loop_exits fuel cur_time w :
  length (to_pull_queue_ w) ≤ fuel →
  TryPull_iteration cur_time (TryPull_loop fuel cur_time w) = None.
Proof.
  revert w. induction fuel as [|fuel IH]; intros w Hlen; simpl.
  - unfold TryPull_iteration.
    destruct (to_pull_queue_ w); [|simpl in Hlen; lia].
    by destruct (_ <? _)%Z.
  - destruct (TryPull_iteration cur_time w) as [w1|] eqn:Hit; [|done].
    apply IH. apply TryPull_iteration_shrinks in Hit. lia.
Qed.

Lemma TryPull_terminates cur_time w :
  TryPull_iteration cur_time (TryPullResourceReport cur_time w) = None.
Proof. by apply TryPull_loop_exits. Qed.

(** ** The invariant is kept *)

Lemma received_states_app l1 l2 :
  received_states (l1 ++ l2) = received_states l1 ++ received_states l2.
Proof.
  induction l1 as [|[|p b] l1 IH]; simpl; [done|done|]. by rewrite IH.
Qed.

Lemma received_states_delete_TryPull k tasks :
  tasks !! k = Some TaskTryPull →
  received_states (delete k tasks) = received_states tasks.
Proof.
  revert k. induction tasks as [|t tasks IH]; intros [|k] Hk; simpl in *; try done.
  - by injection Hk as ->.
  - destruct t; simpl; [by apply IH|]. f_equal. by apply IH.
Qed.

Lemma received_states_delete_Received k tasks p b :
  tasks !! k = Some (TaskReceived p b) →
  received_states tasks ≡ₚ p :: received_states (delete k tasks).
Proof.
  revert k. induction tasks as [|t tasks IH]; intros [|k] Hk; simpl in *; try done.
  - by injection Hk as ->.
  - destruct t; simpl; [by apply IH|].
    rewrite (IH _ Hk). apply Permutation_swap.
Qed.

Lemma submseteq_NoDup {A} (l k : list A) : l ⊆+ k → NoDup k → NoDup l.
Proof.
  intros Hsub Hk. apply submseteq_sublist_l in Hsub as (l2 & Hsl & Hp).
  apply (sublist_NoDup l l2); [|done]. by rewrite Hp.
Qed.

Lemma submseteq_Forall {A} (P : A → Prop) (l k : list A) :
  l ⊆+ k → Forall P k → Forall P l.
Proof.
  intros Hsub Hk. apply Forall_forall. intros x Hx.
  rewrite Forall_forall in Hk. apply Hk. by eapply elem_of_submseteq.
Qed.

Lemma Inv_init max period :
  is_uint64 max → Inv (GcsResourceReportPoller max period).
Proof.
  intros Hmax. split; simpl; try done.
  - unfold is_uint64 in Hmax. lia.
  - constructor.
Qed.

Lemma scanned_held cur_time w w' popped :
  scanned cur_time w w' popped →
  queued_or_inflight w' ⊆+ queued_or_inflight w.
Proof.
  intros []. unfold queued_or_inflight, inflight_states.
  rewrite scan_queue0, scan_callbacks0, scan_posted0.
  set (f := filter (registered w) popped).
  assert (f ⊆+ popped) as Hf by apply sublist_submseteq, sublist_filter.
  transitivity (f ++ to_pull_queue_ w' ++ pending_callbacks w
                  ++ received_states (polling_service_ w)).
  - apply Permutation_submseteq.
    rewrite (Permutation_app_comm (pending_callbacks w) f), <- app_assoc.
    apply Permutation_app_swap_app.
  - rewrite <- app_assoc. by apply submseteq_app.
Qed.

Lemma scanned_Inv cur_time w w' popped :
  scanned cur_time w w' popped → Inv w → Inv w'.
Proof.
  intros Hs [Hmax Hcount Hbound Hnodup Hvalid].
  pose proof (scanned_held _ _ _ _ Hs) as Hheld.
  destruct Hs. split.
  - by rewrite scan_max0.
  - rewrite scan_inflight0, Hcount. unfold inflight_states.
    rewrite scan_callbacks0, scan_posted0, !length_app. lia.
  - by apply scan_budget0.
  - by eapply submseteq_NoDup.
  - rewrite scan_store0. by eapply submseteq_Forall.
Qed.

Lemma TryPullResourceReport_Inv cur_time w :
  Inv w → Inv (TryPullResourceReport cur_time w).
Proof.
  intros HI. destruct (TryPullResourceReport_scanned cur_time w) as [l Hl].
  - apply HI.
  - rewrite (inv_count _ HI). lia.
  - by eapply scanned_Inv.
Qed.

Lemma HandleNodeAdded_Inv node_info w w' :
  HandleNodeAdded node_info w = Ok w' → Inv w → Inv w'.
Proof.
  unfold HandleNodeAdded. destruct (count _ _); [done|].
  intros [= <-] [Hmax Hcount Hbound Hnodup Hvalid].
  unfold queued_or_inflight, inflight_states in *.
  split; simpl; unfold queued_or_inflight, inflight_states; simpl;
    rewrite ?received_states_app, ?app_nil_r; simpl; try done.
  - apply NoDup_cons. split; [|done].
    intros Hin. rewrite Forall_forall in Hvalid. apply Hvalid in Hin. lia.
  - rewrite length_app. simpl. constructor; [lia|].
    eapply Forall_impl; [done|]. simpl. intros. lia.
Qed.

Lemma HandleNodeRemoved_Inv node_info w w' :
  HandleNodeRemoved node_info w = Ok w' → Inv w → Inv w'.
Proof.
  unfold HandleNodeRemoved. destruct (count _ _); [done|].
  intros [= <-] []. by split.
Qed.

Lemma request_report_callback_held state status reply k w :
  pending_callbacks w !! k = Some state →
  queued_or_inflight (request_report_callback state status reply (take_callback k w))
    ≡ₚ queued_or_inflight w.
Proof.
  intros Hk. unfold queued_or_inflight, inflight_states, request_report_callback.
  destruct (ok status); [|destruct (String.eqb _ _)]; simpl;
    rewrite received_states_app; simpl;
    apply Permutation_app_head;
    rewrite app_assoc, <- Permutation_cons_append; symmetry;
    exact (Permutation_app_tail _ (delete_Permutation _ _ _ Hk)).
Qed.

Lemma request_report_callback_Inv state status reply k w :
  pending_callbacks w !! k = Some state →
  Inv w → Inv (request_report_callback state status reply (take_callback k w)).
Proof.
  intros Hk [Hmax Hcount Hbound Hnodup Hvalid].
  pose proof (request_report_callback_held state status reply k w Hk) as Hp.
  assert (inflight_states (request_report_callback state status reply (take_callback k w))
            ≡ₚ inflight_states w) as Hi.
  { unfold queued_or_inflight in Hp. eapply Permutation_app_inv_l.
    etransitivity; [|exact Hp].
    unfold request_report_callback.
    by destruct (ok status); [|destruct (String.eqb _ _)]. }
  assert (∀ x, x = request_report_callback state status reply (take_callback k w) →
    max_concurrent_pulls_ x = max_concurrent_pulls_ w ∧
    inflight_pulls_ x = inflight_pulls_ w ∧ store x = store w) as Hframe.
  { intros x ->. unfold request_report_callback.
    by destruct (ok status); [|destruct (String.eqb _ _)]. }
  destruct (Hframe _ eq_refl) as (Hm & Hn & Hs).
  split.
  - by rewrite Hm.
  - by rewrite Hn, Hi.
  - by rewrite Hm, Hn.
  - by rewrite Hp.
  - by rewrite Hp, Hs.
Qed.

Lemma NodeResourceReportReceived_held state need_full_report now k w :
  polling_service_ w !! k = Some (TaskReceived state need_full_report) →
  queued_or_inflight
    (NodeResourceReportReceived state need_full_report now (take_posted k w))
    ≡ₚ queued_or_inflight w.
Proof.
  intros Hk. unfold queued_or_inflight, inflight_states. simpl.
  rewrite received_states_app, app_nil_r. simpl.
  rewrite (received_states_delete_Received _ _ _ _ Hk).
  rewrite <- !app_assoc. apply Permutation_app_head. simpl.
  by rewrite <- Permutation_middle.
Qed.

Lemma NodeResourceReportReceived_Inv state need_full_report now k w :
  polling_service_ w !! k = Some (TaskReceived state need_full_report) →
  Inv w →
  Inv (NodeResourceReportReceived state need_full_report now (take_posted k w)).
Proof.
  intros Hk [Hmax Hcount Hbound Hnodup Hvalid].
  pose proof (NodeResourceReportReceived_held state need_full_report now k w Hk) as Hp.
  pose proof (received_states_delete_Received _ _ _ _ Hk) as Hr.
  assert (length (inflight_states w) =
          S (length (pending_callbacks w ++
                       received_states (delete k (polling_service_ w))))) as Hlen.
  { unfold inflight_states. rewrite !length_app, Hr. simpl. lia. }
  assert (uint64_wrap (inflight_pulls_ w - 1) = (inflight_pulls_ w - 1)%Z) as Hwrap.
  { apply uint64_wrap_small. unfold is_uint64 in *. lia. }
  split.
  - done.
  - simpl. rewrite Hwrap, Hcount, Hlen. unfold inflight_states. simpl.
    rewrite received_states_app, app_nil_r. lia.
  - simpl. rewrite Hwrap. lia.
  - by rewrite Hp.
  - rewrite Hp. simpl. by rewrite length_insert.
Qed.

Lemma take_posted_TryPull_Inv k w :
  polling_service_ w !! k = Some TaskTryPull → Inv w → Inv (take_posted k w).
Proof.
  intros Hk [Hmax Hcount Hbound Hnodup Hvalid].
  split; try done; unfold queued_or_inflight, inflight_states in *; simpl;
    by rewrite (received_states_delete_TryPull _ _ Hk).
Qed.

Lemma step_Inv w e w' : step w e = Ok w' → Inv w → Inv w'.
Proof.
  destruct e as [info|info|now|k status reply|k now]; simpl.
  - apply HandleNodeAdded_Inv.
  - apply HandleNodeRemoved_Inv.
  - intros [= <-]. apply TryPullResourceReport_Inv.
  - destruct (pending_callbacks w !! k) as [state|] eqn:Hk; intros [= <-]; [|done].
    by apply request_report_callback_Inv.
  - destruct (polling_service_ w !! k) as [[|state b]|] eqn:Hk; intros [= <-]; [| |done].
    + intros HI. simpl. by apply TryPullResourceReport_Inv, take_posted_TryPull_Inv.
    + simpl. by apply NodeResourceReportReceived_Inv.
Qed.

Lemma run_Inv events w w' : run w events = Ok w' → Inv w → Inv w'.
Proof.
  revert w. induction events as [|e events IH]; intros w; simpl.
  - by intros [= <-].
  - destruct (step w e) as [w1|] eqn:Hstep; [|done].
    intros Hrun HI. eapply IH; [done|]. by eapply step_Inv.
Qed.

Lemma reachable_Inv w : reachable w → Inv w.
Proof.
  intros (max & period & history & Hmax & Hrun).
  eapply run_Inv; [done|]. by apply Inv_init.
Qed.

(** [Initialize] is one [NodeAdded] per node of the snapshot. *)
Lemma Initialize_run nodes w : Initialize nodes w = run w (NodeAdded <$> nodes).
Proof.
  revert w. induction nodes as [|node_info nodes IH]; intros w; simpl; [done|].
  destruct (HandleNodeAdded node_info w); [apply IH|done].
Qed.

Lemma reachable_run max period history w :
  is_uint64 max →
  run (GcsResourceReportPoller max period) history = Ok w → reachable w.
Proof. intros. by exists max, period, history. Qed.

Lemma request_report_callback_frame state status reply w :
  let w' := request_report_callback state status reply w in
  max_concurrent_pulls_ w' = max_concurrent_pulls_ w ∧
  poll_period_ms_ w' = poll_period_ms_ w ∧
  inflight_pulls_ w' = inflight_pulls_ w ∧
  nodes_ w' = nodes_ w ∧
  to_pull_queue_ w' = to_pull_queue_ w ∧
  store w' = store w ∧
  request_report_calls w' = request_report_calls w ∧
  pending_callbacks w' = pending_callbacks w.
Proof.
  unfold request_report_callback.
  by destruct (ok status); [|destruct (String.eqb _ _)].
Qed.

Lemma step_constants w e w' :
  Inv w → step w e = Ok w' →
  max_concurrent_pulls_ w' = max_concurrent_pulls_ w ∧
  poll_period_ms_ w' = poll_period_ms_ w.
Proof.
  intros HI.
  assert (∀ now w0, max_concurrent_pulls_ w0 = max_concurrent_pulls_ w →
            poll_period_ms_ w0 = poll_period_ms_ w →
            inflight_pulls_ w0 = inflight_pulls_ w →
            max_concurrent_pulls_ (TryPullResourceReport now w0) = max_concurrent_pulls_ w ∧
            poll_period_ms_ (TryPullResourceReport now w0) = poll_period_ms_ w) as Hscan.
  { intros now w0 Hm Hp Hi.
    destruct (TryPullResourceReport_scanned now w0) as [l []].
    - rewrite Hm. apply HI.
    - rewrite Hi, (inv_count _ HI). lia.
    - split; congruence. }
  destruct e as [info|info|now|k status reply|k now]; simpl.
  - unfold HandleNodeAdded. destruct (count _ _); [done|]. by intros [= <-].
  - unfold HandleNodeRemoved. destruct (count _ _); [done|]. by intros [= <-].
  - intros [= <-]. by apply Hscan.
  - destruct (pending_callbacks w !! k) as [state|]; intros [= <-]; [|done].
    destruct (request_report_callback_frame state status reply (take_callback k w))
      as (-> & -> & _). done.
  - destruct (polling_service_ w !! k) as [[|state b]|]; intros [= <-]; [| |done]; simpl.
    + by apply Hscan.
    + done.
Qed.

Lemma run_constants events w w' :
  Inv w → run w events = Ok w' →
  max_concurrent_pulls_ w' = max_concurrent_pulls_ w ∧
  poll_period_ms_ w' = poll_period_ms_ w.
Proof.
  revert w. induction events as [|e events IH]; intros w HI; simpl.
  - by intros [= <-].
  - destruct (step w e) as [w1|] eqn:Hstep; [|done]. intros Hrun.
    destruct (step_constants _ _ _ HI Hstep) as [<- <-].
    apply IH; [|done]. by eapply step_Inv.
Qed.

(** ** Steps, seen from one state *)

Lemma scanned_scan_step now w w0 w1 popped :
  to_pull_queue_ w0 = to_pull_queue_ w → store w0 = store w →
  nodes_ w0 = nodes_ w → request_report_calls w0 = request_report_calls w →
  pending_callbacks w0 = pending_callbacks w →
  received_states (polling_service_ w0) = received_states (polling_service_ w) →
  scanned now w0 w1 popped → scan_step now popped w w1.
Proof.
  intros Hq Hs Hn Hr Hp Hrec [].
  assert (filter (registered w0) popped = filter (registered w) popped) as Hreg.
  { apply list_filter_iff. intros p. unfold registered, state_node. by rewrite Hn, Hs. }
  assert (request_of w0 = request_of w) as Hreq.
  { unfold request_of. by rewrite Hs. }
  unfold scan_step. split_and!.
  - by rewrite <- Hq.
  - by rewrite <- Hs.
  - by rewrite <- Hs.
  - by rewrite scan_requests0, Hr, Hreq, Hreg.
  - unfold queued_or_inflight, inflight_states.
    rewrite scan_callbacks0, scan_posted0, Hp, Hrec, Hreg.
    apply Permutation_app_head. rewrite <- app_assoc.
    apply Permutation_app_swap_app.
Qed.

Lemma step_summary w e w1 :
  Inv w → step w e = Ok w1 →
  quiet_step w w1 ∨
  ∃ now popped, clock_reading e = Some now ∧ scan_step now popped w w1.
Proof.
  intros HI.
  pose proof (inv_valid _ HI) as Hvalid. rewrite Forall_forall in Hvalid.
  pose proof (inv_nodup _ HI) as Hnodup.
  assert (0 <= inflight_pulls_ w)%Z as Hpos by (rewrite (inv_count _ HI); lia).
  destruct e as [info|info|now|k status reply|k now]; simpl.
  - (* NodeAdded *)
    unfold HandleNodeAdded. destruct (count _ _); [done|]. intros [= <-]. left.
    unfold quiet_step, gone, queued_or_inflight, inflight_states. simpl.
    rewrite received_states_app, app_nil_r. split_and!; [done| | |].
    + intros p Hp. split; [by right|].
      apply lookup_total_app_l. apply Hvalid.
      unfold queued_or_inflight. apply elem_of_app. by left.
    + intros p [Hlt Hp]. rewrite length_app. simpl. split; [lia|].
      intros [->|Hin]%elem_of_cons; [lia|done].
    + intros p Hp. by right.
  - (* NodeRemoved *)
    unfold HandleNodeRemoved. destruct (count _ _); [done|]. intros [= <-]. by left.
  - (* Tick *)
    intros [= <-]. right.
    destruct (TryPullResourceReport_scanned now w (inv_max _ HI) Hpos) as [popped Hs].
    exists now, popped. split; [done|]. by eapply scanned_scan_step.
  - (* Reply *)
    destruct (pending_callbacks w !! k) as [state|] eqn:Hk; intros [= <-]; [|by left].
    left.
    pose proof (request_report_callback_held state status reply k w Hk) as Hheld.
    destruct (request_report_callback_frame state status reply (take_callback k w))
      as (_ & _ & _ & _ & Hq & Hs & Hr & _).
    unfold quiet_step, gone. rewrite Hq, Hs, Hr. split_and!; [done|done| |].
    + intros p [? ?]. by rewrite Hheld.
    + intros p ?. by rewrite Hheld.
  - (* RunPosted *)
    destruct (polling_service_ w !! k) as [[|state b]|] eqn:Hk; intros [= <-]; [| |by left].
    + right. simpl.
      destruct (TryPullResourceReport_scanned now (take_posted k w)) as [popped Hs].
      { apply HI. } { done. }
      exists now, popped. split; [done|].
      eapply scanned_scan_step; [..|exact Hs]; try done.
      simpl. by apply received_states_delete_TryPull.
    + left. simpl run_task.
      pose proof (NodeResourceReportReceived_held state b now k w Hk) as Hheld.
      assert (state ∈ inflight_states w) as Hin.
      { unfold inflight_states. apply elem_of_app. right.
        rewrite (received_states_delete_Received _ _ _ _ Hk). by left. }
      unfold quiet_step, gone. split_and!; [done| | |].
      * intros p Hp. simpl. split; [apply elem_of_app; by left|].
        apply list_lookup_total_insert_ne. intros <-.
        unfold queued_or_inflight in Hnodup.
        apply NoDup_app in Hnodup as (_ & Hdisj & _). by eapply Hdisj.
      * intros p [? ?]. rewrite Hheld. simpl. by rewrite length_insert.
      * intros p ?. by rewrite Hheld.
Qed.

Lemma pulls_of_app p l1 l2 : pulls_of p (l1 ++ l2) = pulls_of p l1 ++ pulls_of p l2.
Proof. apply filter_app. Qed.

Lemma pulls_of_requests_notin p w (l : list ptr) :
  p ∉ l → pulls_of p (request_of w <$> l) = [].
Proof.
  induction l as [|q l IH]; [done|]. intros Hp. simpl.
  apply not_elem_of_cons in Hp as [Hne Hp].
  unfold pulls_of. rewrite filter_cons_False by (simpl; congruence).
  by apply IH.
Qed.

Lemma pulls_of_requests_in p w (l : list ptr) :
  p ∈ l → head (pulls_of p (request_of w <$> l)) = Some (request_of w p).
Proof.
  induction l as [|q l IH]; [by intros ?%elem_of_nil|]. intros Hp. simpl.
  destruct (decide (q = p)) as [->|Hne].
  - unfold pulls_of. by rewrite filter_cons_True by done.
  - unfold pulls_of. rewrite filter_cons_False by (simpl; congruence).
    apply IH. by apply elem_of_cons in Hp as [->|].
Qed.

Lemma step_requests w e w1 :
  Inv w → step w e = Ok w1 →
  ∃ news, request_report_calls w1 = request_report_calls w ++ news.
Proof.
  intros HI Hstep. destruct (step_summary _ _ _ HI Hstep) as [(Hr & _)|Hscan].
  - exists []. by rewrite app_nil_r.
  - destruct Hscan as (now & popped & _ & _ & _ & _ & Hr & _). eauto.
Qed.

Lemma run_requests events w w' :
  Inv w → run w events = Ok w' →
  ∃ news, request_report_calls w' = request_report_calls w ++ news.
Proof.
  revert w. induction events as [|e events IH]; intros w HI; simpl.
  - intros [= <-]. exists []. by rewrite app_nil_r.
  - destruct (step w e) as [w1|] eqn:Hstep; [|done]. intros Hrun.
    destruct (step_requests _ _ _ HI Hstep) as [n1 Hn1].
    destruct (IH w1 (step_Inv _ _ _ Hstep HI) Hrun) as [n2 Hn2].
    exists (n1 ++ n2). by rewrite Hn2, Hn1, app_assoc.
Qed.

Lemma new_requests_app w w' news :
  request_report_calls w' = request_report_calls w ++ news →
  new_requests w w' = news.
Proof. intros H. unfold new_requests. rewrite H. by rewrite drop_app_length. Qed.

Lemma new_requests_split w e w1 events w' :
  Inv w → step w e = Ok w1 → run w1 events = Ok w' →
  new_requests w w' = new_requests w w1 ++ new_requests w1 w'.
Proof.
  intros HI Hstep Hrun.
  destruct (step_requests _ _ _ HI Hstep) as [n1 Hn1].
  destruct (run_requests _ _ _ (step_Inv _ _ _ Hstep HI) Hrun) as [n2 Hn2].
  rewrite (new_requests_app _ _ _ Hn1), (new_requests_app _ _ _ Hn2).
  apply new_requests_app. by rewrite Hn2, Hn1, app_assoc.
Qed.

(** What a scan does to one state. *)
Lemma scan_step_cases now popped w w1 p :
  Inv w → scan_step now popped w w1 →
  (p ∈ to_pull_queue_ w →
     (p ∈ to_pull_queue_ w1 ∧ store w1 !!! p = store w !!! p ∧
      pulls_of p (new_requests w w1) = [])
     ∨ (registered w p ∧ (next_pull_time (store w !!! p) <= now)%Z ∧
        head (pulls_of p (new_requests w w1)) = Some (request_of w p))
     ∨ (gone w1 p ∧ pulls_of p (new_requests w w1) = [])) ∧
  (gone w p → gone w1 p ∧ pulls_of p (new_requests w w1) = []).
Proof.
  intros HI (Hq & Hs & Hdue & Hr & Hheld).
  pose proof (inv_valid _ HI) as Hvalid. rewrite Forall_forall in Hvalid.
  pose proof (inv_nodup _ HI) as Hnodup.
  unfold queued_or_inflight in Hnodup, Hvalid. rewrite Hq in Hnodup.
  apply NoDup_app in Hnodup as (Hnq & Hdisj & _).
  apply NoDup_app in Hnq as (_ & Hpq & _).
  rewrite (new_requests_app _ _ _ Hr).
  split.
  - intros Hp. rewrite Hq in Hp. apply elem_of_app in Hp as [Hp|Hp].
    + destruct (decide (registered w p)) as [Hreg|Hreg].
      * right; left. split; [done|]. split.
        { rewrite Forall_forall in Hdue. by apply Hdue. }
        apply pulls_of_requests_in. apply list_elem_of_filter. done.
      * right; right. split.
        { split.
          - rewrite Hs. apply Hvalid. rewrite Hq. rewrite !elem_of_app. auto.
          - rewrite Hheld. rewrite !elem_of_app. intros [Hin|[Hin|Hin]].
            + by eapply Hpq.
            + apply list_elem_of_filter in Hin as [? _]. done.
            + eapply Hdisj; [|done]. apply elem_of_app. by left. }
        apply pulls_of_requests_notin.
        intros [? _]%list_elem_of_filter. done.
    + left. split_and!; [done|by rewrite Hs|].
      apply pulls_of_requests_notin.
      intros [_ Hin]%list_elem_of_filter. by eapply Hpq.
  - intros [Hlt Hgone]. unfold queued_or_inflight in Hgone. rewrite Hq in Hgone.
    rewrite !elem_of_app in Hgone. split.
    + split; [by rewrite Hs|]. rewrite Hheld, !elem_of_app.
      intros [Hin|[Hin|Hin]].
      * tauto.
      * apply list_elem_of_filter in Hin as [_ ?]. tauto.
      * tauto.
    + apply pulls_of_requests_notin.
      intros [_ Hin]%list_elem_of_filter. tauto.
Qed.

(** A state that nobody holds is never pulled again. *)
Lemma gone_no_pull events w w' p :
  Inv w → gone w p → run w events = Ok w' →
  pulls_of p (new_requests w w') = [].
Proof.
  revert w. induction events as [|e events IH]; intros w HI Hgone; simpl.
  - intros [= <-]. unfold new_requests. by rewrite drop_all.
  - destruct (step w e) as [w1|] eqn:Hstep; [|done]. intros Hrun.
    rewrite (new_requests_split _ _ _ _ _ HI Hstep Hrun), pulls_of_app.
    pose proof (step_Inv _ _ _ Hstep HI) as HI1.
    destruct (step_summary _ _ _ HI Hstep) as [(Hr & _ & Hg & _)|Hscan].
    + rewrite (IH w1 HI1 (Hg _ Hgone) Hrun).
      unfold new_requests. rewrite Hr. by rewrite drop_all.
    + destruct Hscan as (now & popped & _ & Hscan).
      destruct (scan_step_cases _ _ _ _ p HI Hscan) as [_ Hg].
      destruct (Hg Hgone) as [Hg1 ->]. simpl. by apply IH.
Qed.

(** The next pull of a queued state is made from the state as it is
    queued now, by a scan whose clock reading is not before its
    [next_pull_time]. *)
Lemma queued_next_pull events w w' p :
  Inv w → p ∈ to_pull_queue_ w → run w events = Ok w' →
  (∀ r, head (pulls_of p (new_requests w w')) = Some r → r = request_of w p) ∧
  (Forall (λ now, (now < next_pull_time (store w !!! p))%Z) (clock_readings events) →
   pulls_of p (new_requests w w') = []).
Proof.
  revert w. induction events as [|e events IH]; intros w HI Hp; simpl.
  - intros [= <-]. unfold new_requests. by rewrite drop_all.
  - destruct (step w e) as [w1|] eqn:Hstep; [|done]. intros Hrun.
    rewrite (new_requests_split _ _ _ _ _ HI Hstep Hrun), pulls_of_app.
    pose proof (step_Inv _ _ _ Hstep HI) as HI1.
    destruct (step_summary _ _ _ HI Hstep) as [(Hr & Hq & _)|Hscan].
    + destruct (Hq _ Hp) as [Hp1 Hst].
      assert (new_requests w w1 = []) as ->.
      { unfold new_requests. rewrite Hr. by rewrite drop_all. }
      simpl. destruct (IH w1 HI1 Hp1 Hrun) as [IH1 IH2].
      unfold request_of in *. rewrite Hst in *. split; [done|].
      intros Hall. apply IH2.
      unfold clock_readings in *. simpl in Hall.
      destruct (clock_reading e); [by apply Forall_cons in Hall as [_ ?]|done].
    + destruct Hscan as (now & popped & Hclock & Hscan).
      unfold clock_readings. simpl. rewrite Hclock. simpl.
      destruct (scan_step_cases _ _ _ _ p HI Hscan) as [Hc _].
      destruct (Hc Hp) as [(Hp1 & Hst & ->)|[(_ & Hdue & Hhead)|(Hgone & ->)]].
      * simpl. destruct (IH w1 HI1 Hp1 Hrun) as [IH1 IH2].
        unfold request_of in *. rewrite Hst in *. split; [done|].
        intros [_ Hall]%Forall_cons. by apply IH2.
      * destruct (pulls_of p (new_requests w w1)) as [|r0 rest]; [done|].
        simpl in *. injection Hhead as ->. split.
        -- by intros r [= <-].
        -- intros [Hlt _]%Forall_cons. lia.
      * simpl. rewrite (gone_no_pull _ _ _ _ HI1 Hgone Hrun). done.
Qed.

Lemma gone_step w e w1 p : Inv w → gone w p → step w e = Ok w1 → gone w1 p.
Proof.
  intros HI Hgone Hstep.
  destruct (step_summary _ _ _ HI Hstep) as [(_ & _ & Hg & _)|Hscan].
  - by apply Hg.
  - destruct Hscan as (now & popped & _ & Hscan).
    destruct (scan_step_cases _ _ _ _ p HI Hscan) as [_ Hg].
    by destruct (Hg Hgone).
Qed.

Lemma gone_run events w w' p : Inv w → gone w p → run w events = Ok w' → gone w' p.
Proof.
  revert w. induction events as [|e events IH]; intros w HI Hgone; simpl.
  - by intros [= <-].
  - destruct (step w e) as [w1|] eqn:Hstep; [|done]. intros Hrun.
    apply (IH w1); [by eapply step_Inv|by eapply gone_step|done].
Qed.

(** Until it is pulled, a queued state stays queued as it is, or is
    dropped. *)
Lemma queued_until_pulled events w w' p :
  Inv w → p ∈ to_pull_queue_ w → run w events = Ok w' →
  pulls_of p (new_requests w w') = [] →
  (p ∈ to_pull_queue_ w' ∧ store w' !!! p = store w !!! p) ∨ gone w' p.
Proof.
  revert w. induction events as [|e events IH]; intros w HI Hp; simpl.
  - intros [= <-] _. by left.
  - destruct (step w e) as [w1|] eqn:Hstep; [|done]. intros Hrun.
    rewrite (new_requests_split _ _ _ _ _ HI Hstep Hrun), pulls_of_app.
    intros [Hn1 Hn2]%app_eq_nil.
    pose proof (step_Inv _ _ _ Hstep HI) as HI1.
    assert ((p ∈ to_pull_queue_ w1 ∧ store w1 !!! p = store w !!! p) ∨ gone w1 p)
      as [[Hp1 Hst]|Hgone].
    { destruct (step_summary _ _ _ HI Hstep) as [(_ & Hq & _)|Hscan].
      - left. by apply Hq.
      - destruct Hscan as (now & popped & _ & Hscan).
        destruct (scan_step_cases _ _ _ _ p HI Hscan) as [Hc _].
        destruct (Hc Hp) as [(? & ? & _)|[(_ & _ & Hhead)|(? & _)]]; auto.
        rewrite Hn1 in Hhead. done. }
    + rewrite <- Hst. by apply IH.
    + right. by eapply gone_run.
Qed.

(** The step that pulls a queued state next is a scan whose clock
    reading is not before the [next_pull_time] of the state, and the
    request is made from the state as it was queued. *)
Lemma next_pull_step pre e w w_pre w_post p :
  Inv w → p ∈ to_pull_queue_ w →
  run w pre = Ok w_pre → step w_pre e = Ok w_post →
  pulls_of p (new_requests w w_pre) = [] →
  pulls_of p (new_requests w_pre w_post) ≠ [] →
  ∃ t, clock_reading e = Some t ∧
       (next_pull_time (store w !!! p) <= t)%Z ∧
       head (pulls_of p (new_requests w_pre w_post)) = Some (request_of w p).
Proof.
  intros HI Hp Hpre Hstep Hnone Hsome.
  pose proof (run_Inv _ _ _ Hpre HI) as HIpre.
  assert (run w_pre [e] = Ok w_post) as Hrun by (simpl; by rewrite Hstep).
  destruct (queued_until_pulled _ _ _ _ HI Hp Hpre Hnone) as [[Hq Hst]|Hgone].
  - destruct (step_summary _ _ _ HIpre Hstep) as [(Hr & _)|Hscan].
    + exfalso. apply Hsome. unfold new_requests. by rewrite Hr, drop_all.
    + destruct Hscan as (now & popped & Hclock & Hscan).
      destruct (scan_step_cases _ _ _ _ p HIpre Hscan) as [Hc _].
      destruct (Hc Hq) as [(_ & _ & ?)|[(_ & Hdue & Hhead)|(_ & ?)]]; try done.
      exists now. unfold request_of in *. rewrite Hst in *. done.
  - exfalso. apply Hsome. by eapply gone_no_pull.
Qed.

Lemma step_nodes w e w1 :
  Inv w → step w e = Ok w1 →
  match e with
  | NodeAdded node_info =>
      nodes_ w1 = <[FromBinary (rpc.node_id node_info) := length (store w)]> (nodes_ w)
  | NodeRemoved node_info => nodes_ w1 = delete (FromBinary (rpc.node_id node_info)) (nodes_ w)
  | _ => nodes_ w1 = nodes_ w
  end.
Proof.
  intros HI.
  assert (0 <= inflight_pulls_ w)%Z as Hpos by (rewrite (inv_count _ HI); lia).
  destruct e as [info|info|now|k status reply|k now]; simpl.
  - unfold HandleNodeAdded. destruct (count _ _); [done|]. by intros [= <-].
  - unfold HandleNodeRemoved. destruct (count _ _); [done|]. by intros [= <-].
  - intros [= <-].
    destruct (TryPullResourceReport_scanned now w (inv_max _ HI) Hpos) as [popped []].
    done.
  - destruct (pending_callbacks w !! k) as [state|]; intros [= <-]; [|done].
    by destruct (request_report_callback_frame state status reply (take_callback k w))
      as (_ & _ & _ & -> & _).
  - destruct (polling_service_ w !! k) as [[|state b]|]; intros [= <-]; [| |done]; simpl.
    + destruct (TryPullResourceReport_scanned now (take_posted k w)) as [popped []];
        [apply HI|done|done].
    + done.
Qed.

Lemma step_unregistered w e w1 id :
  Inv w → step w e = Ok w1 → ¬ adds id e →
  nodes_ w !! id = None → nodes_ w1 !! id = None.
Proof.
  intros HI Hstep Hadd Hnone. pose proof (step_nodes _ _ _ HI Hstep) as Hn.
  destruct e; simpl in *; rewrite Hn; try done.
  - by rewrite lookup_insert_ne.
  - rewrite lookup_delete. by case_decide.
Qed.

(** The entry of a node that is not registered is never pulled as long
    as the node id is not added again. *)
Lemma unregistered_no_pull events w w' p :
  Inv w → p ∈ to_pull_queue_ w → nodes_ w !! state_node w p = None →
  Forall (λ e, ¬ adds (state_node w p) e) events →
  run w events = Ok w' →
  pulls_of p (new_requests w w') = [].
Proof.
  revert w. induction events as [|e events IH]; intros w HI Hp Hnone Hadds; simpl.
  - intros [= <-]. unfold new_requests. by rewrite drop_all.
  - destruct (step w e) as [w1|] eqn:Hstep; [|done]. intros Hrun.
    apply Forall_cons in Hadds as [Hadd Hadds].
    rewrite (new_requests_split _ _ _ _ _ HI Hstep Hrun), pulls_of_app.
    pose proof (step_Inv _ _ _ Hstep HI) as HI1.
    pose proof (step_unregistered _ _ _ _ HI Hstep Hadd Hnone) as Hnone1.
    destruct (step_summary _ _ _ HI Hstep) as [(Hr & Hq & _)|Hscan].
    + destruct (Hq _ Hp) as [Hp1 Hst].
      assert (new_requests w w1 = []) as ->.
      { unfold new_requests. rewrite Hr. by rewrite drop_all. }
      simpl. apply IH; try done; unfold state_node; by rewrite Hst.
    + destruct Hscan as (now & popped & Hclock & Hscan).
      destruct (scan_step_cases _ _ _ _ p HI Hscan) as [Hc _].
      destruct (Hc Hp) as [(Hp1 & Hst & ->)|[(Hreg & _)|(Hgone & ->)]].
      * simpl. apply IH; try done; unfold state_node; by rewrite Hst.
      * unfold registered in Hreg. rewrite Hnone in Hreg. by destruct Hreg.
      * simpl. by eapply gone_no_pull.
Qed.

Lemma NodeResourceReportReceived_state_node state need_full_report now w p :
  state_node (NodeResourceReportReceived state need_full_report now w) p
    = state_node w p.
Proof.
  unfold state_node. simpl.
  destruct (decide (state = p)) as [->|Hne].
  - destruct (decide (p < length (store w))) as [Hlt|Hge].
    + by rewrite list_lookup_total_insert_eq.
    + by rewrite list_insert_ge by lia.
  - by rewrite list_lookup_total_insert_ne.
Qed.

(** What running a posted [NodeResourceReportReceived] does. *)
Lemma NodeResourceReportReceived_summary w j p need_full_report now :
  Inv w →
  polling_service_ w !! j = Some (TaskReceived p need_full_report) →
  let w2 := NodeResourceReportReceived p need_full_report now (take_posted j w) in
  step w (RunPosted j now) = Ok w2 ∧
  Inv w2 ∧
  to_pull_queue_ w2 = to_pull_queue_ w ++ [p] ∧
  next_pull_time (store w2 !!! p) =
    (if need_full_report then unset else int64_wrap (now + poll_period_ms_ w)) ∧
  address (store w2 !!! p) = address (store w !!! p) ∧
  request_report_calls w2 = request_report_calls w ∧
  handle_resource_report_calls w2 = handle_resource_report_calls w.
Proof.
  intros HI Hj w2.
  assert (step w (RunPosted j now) = Ok w2) as Hstep by (simpl; by rewrite Hj).
  assert (p < length (store w)) as Hlt.
  { pose proof (inv_valid _ HI) as Hvalid. rewrite Forall_forall in Hvalid.
    apply Hvalid. unfold queued_or_inflight, inflight_states.
    rewrite !elem_of_app. right; right.
    rewrite (received_states_delete_Received _ _ _ _ Hj). by left. }
  split_and!; try done.
  - by eapply step_Inv.
  - unfold w2. simpl. by rewrite list_lookup_total_insert_eq.
  - unfold w2. simpl. by rewrite list_lookup_total_insert_eq.
Qed.

(** ** Registered states *)

Lemma Excl_init max period : Excl (GcsResourceReportPoller max period).
Proof.
  split; simpl.
  - intros id p. by rewrite lookup_empty.
  - intros p q Hp. by apply elem_of_nil in Hp.
Qed.

Lemma step_store w e w1 :
  Inv w → step w e = Ok w1 →
  (∀ p, p < length (store w) → state_node w1 p = state_node w p) ∧
  match e with
  | NodeAdded node_info =>
      state_node w1 (length (store w)) = FromBinary (rpc.node_id node_info) ∧
      queued_or_inflight w1 = length (store w) :: queued_or_inflight w
  | _ => length (store w1) = length (store w)
  end.
Proof.
  intros HI.
  assert (0 <= inflight_pulls_ w)%Z as Hpos by (rewrite (inv_count _ HI); lia).
  destruct e as [info|info|now|k status reply|k now]; simpl.
  - unfold HandleNodeAdded. destruct (count _ _); [done|]. intros [= <-].
    unfold state_node, queued_or_inflight, inflight_states. simpl. split_and!.
    + intros p Hp. by rewrite lookup_total_app_l.
    + by rewrite lookup_total_app_r, Nat.sub_diag by lia.
    + by rewrite received_states_app, app_nil_r.
  - unfold HandleNodeRemoved. destruct (count _ _); [done|]. by intros [= <-].
  - intros [= <-].
    destruct (TryPullResourceReport_scanned now w (inv_max _ HI) Hpos) as [popped []].
    unfold state_node. by rewrite scan_store0.
  - destruct (pending_callbacks w !! k) as [state|]; intros [= <-]; [|done].
    destruct (request_report_callback_frame state status reply (take_callback k w))
      as (_ & _ & _ & _ & _ & Hs & _).
    unfold state_node. by rewrite Hs.
  - destruct (polling_service_ w !! k) as [[|state b]|]; intros [= <-]; [| |done]; simpl.
    + destruct (TryPullResourceReport_scanned now (take_posted k w)) as [popped []];
        [apply HI|done|].
      unfold state_node. by rewrite scan_store0.
    + split; [|by rewrite length_insert]. intros p _.
      by rewrite NodeResourceReportReceived_state_node.
Qed.

(** A registered state that is held stays held; a held state was held
    before, unless [NodeAdded] has just made it. *)
Lemma step_held w e w1 :
  Inv w → step w e = Ok w1 →
  (∀ p, p ∈ queued_or_inflight w → registered w p → p ∈ queued_or_inflight w1) ∧
  (∀ p, p ∈ queued_or_inflight w1 →
        p ∈ queued_or_inflight w ∨ p = length (store w) ∧ adds (state_node w1 p) e).
Proof.
  intros HI Hstep.
  pose proof (step_Inv _ _ _ Hstep HI) as HI1.
  pose proof (inv_valid _ HI1) as Hvalid1. rewrite Forall_forall in Hvalid1.
  destruct (step_store _ _ _ HI Hstep) as [_ Hlen].
  assert (∀ p, p < length (store w) → p ∈ queued_or_inflight w1 →
               p ∈ queued_or_inflight w) as Hback.
  { intros p Hlt Hin.
    destruct (decide (p ∈ queued_or_inflight w)) as [|Hnot]; [done|].
    destruct (step_summary _ _ _ HI Hstep) as [(_ & _ & Hg & _)|Hscan].
    - destruct (Hg p) as [_ ?]; done.
    - destruct Hscan as (now & popped & _ & Hscan).
      destruct (scan_step_cases _ _ _ _ p HI Hscan) as [_ Hg].
      destruct Hg as [[_ ?] _]; done. }
  split.
  - intros p Hp Hreg.
    destruct (step_summary _ _ _ HI Hstep) as [(_ & _ & _ & Hfwd)|Hscan].
    + by apply Hfwd.
    + destruct Hscan as (now & popped & _ & Hq & _ & _ & _ & Hheld).
      rewrite Hheld. unfold queued_or_inflight in Hp. rewrite Hq in Hp.
      rewrite !elem_of_app in *. destruct Hp as [[Hp|Hp]|Hp]; auto.
      right; left. by apply list_elem_of_filter.
  - intros p Hp. destruct e as [info|info|now|k status reply|k now];
      try (left; apply Hback; [rewrite <- Hlen; by apply Hvalid1|done]).
    destruct Hlen as [Hid Hq]. rewrite Hq in Hp.
    apply elem_of_cons in Hp as [->|Hp]; [|by left].
    right. split; [done|]. simpl. by rewrite Hid.
Qed.

Lemma step_Excl w e w1 :
  Inv w → Excl w → add_is_fresh w e → step w e = Ok w1 → Excl w1.
Proof.
  intros HI [Hreg Hheld] Hfresh Hstep.
  pose proof (inv_valid _ HI) as Hvalid. rewrite Forall_forall in Hvalid.
  pose proof (step_nodes _ _ _ HI Hstep) as Hnodes.
  destruct (step_store _ _ _ HI Hstep) as [Hnode Hnew].
  destruct (step_held _ _ _ HI Hstep) as [Hfwd Hback].
  assert (∀ id p, nodes_ w !! id = Some p →
            state_node w1 p = id ∧ p ∈ queued_or_inflight w1) as Hold.
  { intros id p Hp. destruct (Hreg _ _ Hp) as [Hid Hin]. split.
    - rewrite Hnode; [done|]. by apply Hvalid.
    - apply Hfwd; [done|]. unfold registered. rewrite Hid, Hp. eauto. }
  split.
  - intros id p Hp.
    destruct e as [info|info|now|k status reply|k now]; rewrite Hnodes in Hp;
      try (by apply Hold).
    + destruct Hnew as [Hid Hq].
      destruct (decide (FromBinary (rpc.node_id info) = id)) as [<-|Hne].
      * rewrite lookup_insert_eq in Hp. injection Hp as <-.
        split; [done|]. rewrite Hq. by left.
      * rewrite lookup_insert_ne in Hp by done. by apply Hold.
    + apply lookup_delete_Some in Hp as [_ Hp]. by apply Hold.
  - intros p q Hp Hq.
    destruct (Hback _ Hp) as [Hin|[-> Hadd]].
    + assert (state_node w1 p = state_node w p) as Hsame
        by (apply Hnode; by apply Hvalid).
      rewrite Hsame in Hq.
      destruct e as [info|info|now|k status reply|k now]; rewrite Hnodes in Hq;
        try (by eapply Hheld).
      * destruct (decide (FromBinary (rpc.node_id info) = state_node w p)) as [Heq|Hne].
        -- exfalso. apply Hfresh. rewrite Heq. apply list_elem_of_fmap. eauto.
        -- rewrite lookup_insert_ne in Hq by done. by eapply Hheld.
      * apply lookup_delete_Some in Hq as [_ Hq]. by eapply Hheld.
    + destruct e as [info|info|now|k status reply|k now]; try done.
      simpl in Hadd. rewrite Hnodes, <- Hadd, lookup_insert_eq in Hq. congruence.
Qed.

Lemma run_Excl events w w' :
  Inv w → Excl w → adds_are_fresh w events → run w events = Ok w' → Excl w'.
Proof.
  revert w. induction events as [|e events IH]; intros w HI HX; simpl.
  - by intros _ [= <-].
  - destruct (step w e) as [w1|] eqn:Hstep; [|done]. intros [Hfresh Hrest] Hrun.
    apply (IH w1); try done.
    + by eapply step_Inv.
    + by eapply step_Excl.
Qed.

Lemma NoDup_all_equal {A} (l : list A) (x : A) :
  NoDup l → x ∈ l → (∀ y, y ∈ l → y = x) → l = [x].
Proof.
  intros Hnd Hx Hall. destruct l as [|a l]; [by apply elem_of_nil in Hx|].
  assert (a = x) as -> by (apply Hall; by left).
  f_equal. destruct l as [|b l]; [done|].
  assert (b = x) as -> by (apply Hall; right; by left).
  apply NoDup_cons in Hnd as [Hnot _]. exfalso. apply Hnot. by left.
Qed.

Lemma Excl_one_place w id p :
  Inv w → Excl w → nodes_ w !! id = Some p →
  queued_for w id ++ inflight_for w id = [p].
Proof.
  intros HI [Hreg Hheld] Hp. unfold queued_for, inflight_for.
  rewrite <- filter_app. fold (queued_or_inflight w).
  destruct (Hreg _ _ Hp) as [Hid Hin].
  apply NoDup_all_equal.
  - apply NoDup_filter, HI.
  - by apply list_elem_of_filter.
  - intros q [Hq Hqin]%list_elem_of_filter.
    symmetry. apply (Hheld q p Hqin). by rewrite Hq.
Qed.

(** ** More on scans *)

Lemma TryPull_iteration_None cur_time w :
  TryPull_iteration cur_time w = None ↔ scan_blocked cur_time w.
Proof.
  unfold TryPull_iteration, scan_blocked.
  destruct (Z.ltb_spec (inflight_pulls_ w) (max_concurrent_pulls_ w)) as [Hlt|Hge].
  - destruct (to_pull_queue_ w) as [|p q] eqn:Hq.
    + split; auto.
    + destruct (Z.ltb_spec cur_time (next_pull_time (store w !!! p))) as [Hnot|Hdue].
      * split; [|done]. intros _. right; right. eauto.
      * split.
        -- simpl. by destruct (negb _).
        -- intros [?|[?|(p' & rest & [= <- <-] & ?)]]; [lia|done|lia].
  - split; auto.
Qed.

Lemma TryPull_loop_queue_length fuel cur_time w :
  length (to_pull_queue_ (TryPull_loop fuel cur_time w)) ≤ length (to_pull_queue_ w).
Proof.
  revert w. induction fuel as [|fuel IH]; intros w; simpl; [done|].
  destruct (TryPull_iteration cur_time w) as [w1|] eqn:Hit; [|done].
  apply TryPull_iteration_shrinks in Hit. specialize (IH w1). lia.
Qed.

Lemma filter_all {A} (P : A → Prop) `{∀ x, Decision (P x)} (l : list A) :
  Forall P l → filter P l = l.
Proof.
  induction 1 as [|x l Hx Hl IH]; [done|].
  rewrite filter_cons_True by done. by rewrite IH.
Qed.

Lemma TryPull_iteration_later now now' w w1 :
  (now <= now')%Z →
  TryPull_iteration now w = Some w1 → TryPull_iteration now' w = Some w1.
Proof.
  intros Hle. unfold TryPull_iteration.
  destruct (inflight_pulls_ w <? max_concurrent_pulls_ w)%Z; [|done].
  destruct (to_pull_queue_ w) as [|p q]; [done|].
  destruct (Z.ltb_spec now (next_pull_time (store w !!! p))); [done|].
  destruct (Z.ltb_spec now' (next_pull_time (store w !!! p))); [lia|done].
Qed.

Lemma TryPullResourceReport_unfold now w w1 :
  TryPull_iteration now w = Some w1 →
  TryPullResourceReport now w = TryPullResourceReport now w1.
Proof.
  intros Hit. pose proof (TryPull_iteration_shrinks _ _ _ Hit) as Hlen.
  unfold TryPullResourceReport. rewrite Hlen. simpl. by rewrite Hit.
Qed.

(** ** What the states and the requests keep *)

Lemma step_registered_held w e w1 :
  Inv w → registered_held w → step w e = Ok w1 → registered_held w1.
Proof.
  intros HI Hreg Hstep.
  pose proof (inv_valid _ HI) as Hvalid. rewrite Forall_forall in Hvalid.
  pose proof (step_nodes _ _ _ HI Hstep) as Hnodes.
  destruct (step_store _ _ _ HI Hstep) as [Hnode Hnew].
  destruct (step_held _ _ _ HI Hstep) as [Hfwd _].
  assert (∀ id p, nodes_ w !! id = Some p →
            state_node w1 p = id ∧ p ∈ queued_or_inflight w1) as Hold.
  { intros id p Hp. destruct (Hreg _ _ Hp) as [Hid Hin]. split.
    - rewrite Hnode; [done|]. by apply Hvalid.
    - apply Hfwd; [done|]. unfold registered. rewrite Hid, Hp. eauto. }
  intros id p Hp.
  destruct e as [info|info|now|k status reply|k now]; rewrite Hnodes in Hp;
    try (by apply Hold).
  - destruct Hnew as [Hid Hq].
    destruct (decide (FromBinary (rpc.node_id info) = id)) as [<-|Hne].
    + rewrite lookup_insert_eq in Hp. injection Hp as <-.
      split; [done|]. rewrite Hq. by left.
    + rewrite lookup_insert_ne in Hp by done. by apply Hold.
  - apply lookup_delete_Some in Hp as [_ Hp]. by apply Hold.
Qed.

Lemma run_registered_held events w w' :
  Inv w → registered_held w → run w events = Ok w' → registered_held w'.
Proof.
  revert w. induction events as [|e events IH]; intros w HI Hreg; simpl.
  - by intros [= <-].
  - destruct (step w e) as [w1|] eqn:Hstep; [|done]. intros Hrun.
    apply (IH w1); [by eapply step_Inv|by eapply step_registered_held|done].
Qed.

(** The fields of a state that no handler writes. *)
Lemma step_store_fields w e w1 :
  Inv w → step w e = Ok w1 →
  length (store w) ≤ length (store w1) ∧
  (∀ p, p < length (store w) →
        node_id (store w1 !!! p) = node_id (store w !!! p) ∧
        address (store w1 !!! p) = address (store w !!! p)) ∧
  (Forall well_addressed (store w) → Forall well_addressed (store w1)).
Proof.
  intros HI.
  assert (0 <= inflight_pulls_ w)%Z as Hpos by (rewrite (inv_count _ HI); lia).
  assert (∀ now w0, store w0 = store w → inflight_pulls_ w0 = inflight_pulls_ w →
            max_concurrent_pulls_ w0 = max_concurrent_pulls_ w →
            store (TryPullResourceReport now w0) = store w) as Hscan.
  { intros now w0 Hs Hi Hm.
    destruct (TryPullResourceReport_scanned now w0) as [l []].
    - rewrite Hm. apply HI.
    - by rewrite Hi.
    - congruence. }
  destruct e as [info|info|now|k status reply|k now]; simpl.
  - unfold HandleNodeAdded. destruct (count _ _); [done|]. intros [= <-]. simpl.
    rewrite length_app. simpl. split_and!; [lia| |].
    + intros p Hp. by rewrite lookup_total_app_l.
    + intros Hwf. apply Forall_app. split; [done|]. by repeat constructor.
  - unfold HandleNodeRemoved. destruct (count _ _); [done|]. by intros [= <-].
  - intros [= <-]. by rewrite (Hscan now w).
  - destruct (pending_callbacks w !! k) as [state|]; intros [= <-]; [|done].
    destruct (request_report_callback_frame state status reply (take_callback k w))
      as (_ & _ & _ & _ & _ & -> & _). done.
  - destruct (polling_service_ w !! k) as [[|state b]|]; intros [= <-]; [| |done]; simpl.
    + by rewrite (Hscan now (take_posted k w)).
    + rewrite length_insert. split_and!; [done| |].
      * intros p Hp. destruct (decide (state = p)) as [->|Hne].
        -- by rewrite list_lookup_total_insert_eq.
        -- by rewrite list_lookup_total_insert_ne.
      * intros Hwf. destruct (decide (state < length (store w))) as [Hlt|Hge].
        -- apply Forall_insert; [done|].
           rewrite Forall_forall in Hwf. unfold well_addressed. simpl.
           apply (Hwf (store w !!! state)). by apply list_elem_of_lookup_total_2.
        -- by rewrite list_insert_ge by lia.
Qed.

Lemma run_store_fields events w w' :
  Inv w → run w events = Ok w' →
  length (store w) ≤ length (store w') ∧
  (∀ p, p < length (store w) →
        node_id (store w' !!! p) = node_id (store w !!! p) ∧
        address (store w' !!! p) = address (store w !!! p)) ∧
  (Forall well_addressed (store w) → Forall well_addressed (store w')).
Proof.
  revert w. induction events as [|e events IH]; intros w HI; simpl.
  - by intros [= <-].
  - destruct (step w e) as [w1|] eqn:Hstep; [|done]. intros Hrun.
    destruct (step_store_fields _ _ _ HI Hstep) as (Hlen & Hsame & Hwf).
    destruct (IH w1 (step_Inv _ _ _ Hstep HI) Hrun) as (Hlen' & Hsame' & Hwf').
    split_and!; [lia| |auto].
    intros p Hp. destruct (Hsame p Hp) as [<- <-]. apply Hsame'. lia.
Qed.

Lemma step_requests_match w e w1 :
  Inv w → step w e = Ok w1 →
  Forall (request_matches w) (request_report_calls w) →
  Forall (request_matches w1) (request_report_calls w1).
Proof.
  intros HI Hstep Hold.
  destruct (step_store_fields _ _ _ HI Hstep) as (Hlen & Hsame & _).
  pose proof (inv_valid _ HI) as Hvalid. rewrite Forall_forall in Hvalid.
  assert (Forall (request_matches w1) (request_report_calls w)) as Hold1.
  { eapply Forall_impl; [exact Hold|]. intros r [Hlt Haddr].
    destruct (Hsame _ Hlt) as [_ Heq].
    split; [lia|]. etransitivity; [exact Haddr|]. symmetry. exact Heq. }
  destruct (step_summary _ _ _ HI Hstep) as [(-> & _)|Hscan]; [done|].
  destruct Hscan as (now & popped & _ & Hq & Hs & _ & -> & _).
  apply Forall_app. split; [done|].
  apply Forall_fmap, Forall_forall. intros q [_ Hin]%list_elem_of_filter.
  unfold request_matches. simpl. rewrite Hs. split; [|done].
  apply Hvalid. unfold queued_or_inflight. rewrite Hq, !elem_of_app. auto.
Qed.

Lemma run_requests_match events w w' :
  Inv w → run w events = Ok w' →
  Forall (request_matches w) (request_report_calls w) →
  Forall (request_matches w') (request_report_calls w').
Proof.
  revert w. induction events as [|e events IH]; intros w HI; simpl.
  - by intros [= <-].
  - destruct (step w e) as [w1|] eqn:Hstep; [|done]. intros Hrun Hm.
    apply (IH w1); [by eapply step_Inv|done|by eapply step_requests_match].
Qed.

Lemma reachable_addressed w :
  reachable w →
  Forall well_addressed (store w) ∧
  Forall (request_matches w) (request_report_calls w).
Proof.
  intros (max & period & history & Hmax & Hrun).
  pose proof (Inv_init max period Hmax) as HI0.
  split.
  - destruct (run_store_fields _ _ _ HI0 Hrun) as (_ & _ & Hwf). by apply Hwf.
  - by apply (run_requests_match _ _ _ HI0 Hrun).
Qed.

(** ** The membership handlers *)

Lemma HandleNodeRemoved_Ok node_info w :
  ∃ w',
    HandleNodeRemoved node_info w = Ok w' ∧
    nodes_ w' = delete (FromBinary (rpc.node_id node_info)) (nodes_ w) ∧
    to_pull_queue_ w' = to_pull_queue_ w ∧
    inflight_pulls_ w' = inflight_pulls_ w ∧
    store w' = store w ∧
    polling_service_ w' = polling_service_ w ∧
    pending_callbacks w' = pending_callbacks w ∧
    request_report_calls w' = request_report_calls w.
Proof.
  unfold HandleNodeRemoved.
  assert (count (delete (FromBinary (rpc.node_id node_info)) (nodes_ w))
            (FromBinary (rpc.node_id node_info)) = false) as ->.
  { apply count_false. apply lookup_delete_eq. }
  eexists. by split_and!.
Qed.

Lemma HandleNodeAdded_registered node_info w :
  is_Some (nodes_ w !! FromBinary (rpc.node_id node_info)) →
  HandleNodeAdded node_info w = Fatal "Node was added twice!".
Proof.
  intros Hreg. apply count_true in Hreg. unfold HandleNodeAdded.
  cbn [node_id]. by rewrite Hreg.
Qed.

Lemma HandleNodeAdded_Ok node_info w w' :
  HandleNodeAdded node_info w = Ok w' →
  nodes_ w !! FromBinary (rpc.node_id node_info) = None ∧
  nodes_ w' = <[FromBinary (rpc.node_id node_info) := length (store w)]> (nodes_ w) ∧
  store w' = store w ++ [new_pull_state node_info] ∧
  to_pull_queue_ w' = length (store w) :: to_pull_queue_ w ∧
  polling_service_ w' = polling_service_ w ++ [TaskTryPull] ∧
  inflight_pulls_ w' = inflight_pulls_ w ∧
  max_concurrent_pulls_ w' = max_concurrent_pulls_ w ∧
  request_report_calls w' = request_report_calls w ∧
  pending_callbacks w' = pending_callbacks w.
Proof.
  unfold HandleNodeAdded. cbn [node_id].
  destruct (count _ _) eqn:Hc; [done|]. apply count_false in Hc.
  by intros [= <-].
Qed.

Lemma HandleNodeAdded_unregistered node_info w :
  nodes_ w !! FromBinary (rpc.node_id node_info) = None →
  ∃ w', HandleNodeAdded node_info w = Ok w'.
Proof.
  intros Hnone. apply count_false in Hnone. unfold HandleNodeAdded.
  cbn [node_id]. rewrite Hnone. eauto.
Qed.

(** The entry at the front is pulled first when it is due, registered
    and there is budget. *)
Lemma front_is_pulled_first now w p rest :
  Inv w →
  to_pull_queue_ w = p :: rest →
  (inflight_pulls_ w < max_concurrent_pulls_ w)%Z →
  (next_pull_time (store w !!! p) <= now)%Z →
  registered w p →
  head (new_requests w (TryPullResourceReport now w)) = Some (request_of w p).
Proof.
  intros HI Hq Hbudget Hdue Hreg.
  assert (TryPull_iteration now w = Some (PullResourceReport p (pop_front w))) as Hit.
  { unfold TryPull_iteration. rewrite Hq.
    destruct (Z.ltb_spec (inflight_pulls_ w) (max_concurrent_pulls_ w)); [|lia].
    destruct (Z.ltb_spec now (next_pull_time (store w !!! p))); [lia|].
    cbn [pop_front nodes_ store].
    apply count_true in Hreg. unfold state_node in Hreg. by rewrite Hreg. }
  unfold TryPullResourceReport. rewrite Hq. simpl TryPull_loop. rewrite Hit.
  set (w2 := PullResourceReport p (pop_front w)).
  destruct (TryPull_loop_scanned (length rest) now w2) as [popped Hs].
  { apply HI. }
  { simpl. unfold uint64_wrap. apply Z.mod_pos_bound. lia. }
  rewrite (new_requests_app w _
             ([request_of w p] ++ (request_of w2 <$> filter (registered w2) popped))).
  - done.
  - rewrite (scan_requests _ _ _ _ Hs). unfold w2 at 1. simpl.
    by rewrite <- app_assoc.
Qed.

(** ** What reaches the report handler *)

Lemma step_reports w e w1 :
  Inv w → step w e = Ok w1 →
  ∃ l, handle_resource_report_calls w1 = handle_resource_report_calls w ++ l ∧
       l `sublist_of` (omap ok_payload [e]).
Proof.
  intros HI.
  assert (0 <= inflight_pulls_ w)%Z as Hpos by (rewrite (inv_count _ HI); lia).
  assert (∀ x, handle_resource_report_calls x = handle_resource_report_calls w →
            ∃ l, handle_resource_report_calls x = handle_resource_report_calls w ++ l ∧
                 l `sublist_of` (omap ok_payload [e])) as Hsame.
  { intros x ->. exists []. rewrite app_nil_r. split; [done|apply sublist_nil_l]. }
  destruct e as [info|info|now|k status reply|k now]; simpl.
  - unfold HandleNodeAdded. destruct (count _ _); [done|]. intros [= <-].
    by apply Hsame.
  - unfold HandleNodeRemoved. destruct (count _ _); [done|]. intros [= <-].
    by apply Hsame.
  - intros [= <-]. apply Hsame.
    by destruct (TryPullResourceReport_scanned now w (inv_max _ HI) Hpos) as [l []].
  - destruct (pending_callbacks w !! k) as [state|]; intros [= <-];
      [|by apply Hsame].
    unfold request_report_callback. destruct status as [|text]; simpl.
    + exists [rpc.resources reply]. done.
    + apply Hsame. by destruct (String.eqb _ _).
  - destruct (polling_service_ w !! k) as [[|state b]|]; intros [= <-];
      [| |by apply Hsame]; apply Hsame; simpl; [|done].
    by destruct (TryPullResourceReport_scanned now (take_posted k w)
                   (inv_max _ HI) Hpos) as [l []].
Qed.

(** ** The pub/sub handler *)

Lemma handle_commands_calls subscriber_id commands h :
  match handle_commands subscriber_id commands h with
  | Fatal _ =>
      ∃ command, command ∈ commands ∧
        pubsub.command_message_one_of_case command
          = pubsub.COMMAND_MESSAGE_ONE_OF_NOT_SET
  | Ok h' =>
      Forall (λ command, pubsub.command_message_one_of_case command
                           ≠ pubsub.COMMAND_MESSAGE_ONE_OF_NOT_SET) commands ∧
      publisher_calls h' = publisher_calls h ++ (call_for subscriber_id <$> commands) ∧
      sent_replies h' = sent_replies h
  end.
Proof.
  revert h. induction commands as [|command commands IH]; intros h; simpl.
  { by rewrite app_nil_r. }
  unfold handle_command, call_for, has_unsubscribe_message, has_subscribe_message.
  destruct (pubsub.command_message_one_of_case command) eqn:Hcase.
  - exists command. split; [by left|done].
  - match goal with |- context [handle_commands _ _ ?h1] => specialize (IH h1) end.
    destruct (handle_commands _ _ _) as [h'|message].
    + destruct IH as (Hall & Hcalls & Hreplies). simpl in *.
      split_and!; [constructor; [congruence|done]| |done].
      rewrite Hcalls, <- app_assoc. done.
    + destruct IH as (c & Hin & Hc). exists c. split; [by right|done].
  - match goal with |- context [handle_commands _ _ ?h1] => specialize (IH h1) end.
    destruct (handle_commands _ _ _) as [h'|message].
    + destruct IH as (Hall & Hcalls & Hreplies). simpl in *.
      split_and!; [constructor; [congruence|done]| |done].
      rewrite Hcalls, <- app_assoc. done.
    + destruct IH as (c & Hin & Hc). exists c. split; [by right|done].
Qed.

(** ** Requests, seen from a node *)

Lemma requests_to_app id l1 l2 :
  requests_to id (l1 ++ l2) = requests_to id l1 ++ requests_to id l2.
Proof. apply filter_app. Qed.

Lemma request_of_node w q :
  Forall well_addressed (store w) → q < length (store w) →
  FromBinary (rpc.raylet_id (req_address (request_of w q))) = state_node w q.
Proof.
  intros Hwf Hlt. rewrite Forall_forall in Hwf. simpl.
  apply (Hwf (store w !!! q)). by apply list_elem_of_lookup_total_2.
Qed.

(** The requests of a scan that go to a node, by the popped entries. *)
Lemma scan_requests_to w id (popped : list ptr) :
  Forall well_addressed (store w) →
  Forall (λ q, q < length (store w)) popped →
  requests_to id (request_of w <$> popped)
    = request_of w <$> filter (λ q, state_node w q = id) popped.
Proof.
  intros Hwf. induction 1 as [|q l Hq Hl IH]; [done|].
  rewrite fmap_cons. unfold requests_to in *. rewrite !filter_cons.
  pose proof (request_of_node w q Hwf Hq) as Hnode.
  destruct (decide (state_node w q = id)) as [Heq|Hne].
  - rewrite decide_True by (by rewrite Hnode). rewrite fmap_cons. by rewrite IH.
  - rewrite decide_False by (by rewrite Hnode). done.
Qed.

Lemma scan_popped_valid now popped w w1 :
  Inv w → scan_step now popped w w1 →
  Forall (λ q, q < length (store w)) (filter (registered w) popped).
Proof.
  intros HI (Hq & _). pose proof (inv_valid _ HI) as Hvalid.
  rewrite Forall_forall in Hvalid. apply Forall_forall.
  intros q [_ Hin]%list_elem_of_filter. apply Hvalid.
  unfold queued_or_inflight. rewrite Hq, !elem_of_app. auto.
Qed.



Lemma filter_ext_in {A} (P Q : A → Prop) `{∀ x, Decision (P x)} `{∀ x, Decision (Q x)}
    (l : list A) :
  (∀ x, x ∈ l → P x ↔ Q x) → filter P l = filter Q l.
Proof.
  induction l as [|x l IH]; intros Hiff; [done|]. rewrite !filter_cons.
  assert (filter P l = filter Q l) as ->.
  { apply IH. intros y Hy. apply Hiff. by right. }
  destruct (decide (P x)) as [HP|HP], (decide (Q x)) as [HQ|HQ]; try done;
    exfalso; apply (Hiff x) in HP || apply (Hiff x) in HQ; done || by left.
Qed.

Lemma pulls_of_requests w p (l : list ptr) :
  pulls_of p (request_of w <$> l) = request_of w <$> filter (λ q, q = p) l.
Proof.
  unfold pulls_of. induction l as [|q l IH]; [done|].
  rewrite fmap_cons, !filter_cons. simpl.
  destruct (decide (q = p)); [rewrite fmap_cons|]; by rewrite IH.
Qed.

(** While a state is the sole entry of its node and the node is not
    added again, the requests to the node are the pulls of that state. *)
Lemma sole_entry_step w e w1 p :
  Inv w → Forall well_addressed (store w) → p < length (store w) →
  sole_entry w p → ¬ adds (state_node w p) e →
  step w e = Ok w1 →
  requests_to (state_node w p) (new_requests w w1) = pulls_of p (new_requests w w1) ∧
  sole_entry w1 p ∧ state_node w1 p = state_node w p.
Proof.
  intros HI Hwf Hp Hsole Hadd Hstep.
  pose proof (inv_valid _ HI) as Hvalid. rewrite Forall_forall in Hvalid.
  destruct (step_store _ _ _ HI Hstep) as [Hnode _].
  destruct (step_held _ _ _ HI Hstep) as [_ Hback].
  assert (state_node w1 p = state_node w p) as Hsame by by apply Hnode.
  split_and!; [| |done].
  - destruct (step_summary _ _ _ HI Hstep) as [(Hr & _)|Hscan].
    { unfold new_requests. by rewrite Hr, drop_all. }
    destruct Hscan as (now & popped & _ & Hscan).
    pose proof (scan_popped_valid _ _ _ _ HI Hscan) as Hpv.
    destruct Hscan as (Hq & _ & _ & Hreq & _).
    rewrite (new_requests_app _ _ _ Hreq), (scan_requests_to _ _ _ Hwf Hpv).
    rewrite pulls_of_requests. f_equal. apply filter_ext_in.
    intros q [_ Hin]%list_elem_of_filter. split; [|by intros ->].
    apply Hsole. unfold queued_or_inflight. rewrite Hq, !elem_of_app. auto.
  - intros q Hin Hid. rewrite Hsame in Hid.
    destruct (Hback _ Hin) as [Hold|[_ Hnew]].
    + apply Hsole; [done|]. by rewrite <- (Hnode q) by (by apply Hvalid).
    + by rewrite Hid in Hnew.
Qed.

Lemma sole_entry_requests events w w' p :
  Inv w → Forall well_addressed (store w) → p < length (store w) →
  sole_entry w p → Forall (λ e, ¬ adds (state_node w p) e) events →
  run w events = Ok w' →
  requests_to (state_node w p) (new_requests w w') = pulls_of p (new_requests w w').
Proof.
  revert w. induction events as [|e events IH]; intros w HI Hwf Hp Hsole Hadds; simpl.
  - intros [= <-]. unfold new_requests. by rewrite drop_all.
  - destruct (step w e) as [w1|] eqn:Hstep; [|done]. intros Hrun.
    apply Forall_cons in Hadds as [Hadd Hadds].
    destruct (sole_entry_step _ _ _ _ HI Hwf Hp Hsole Hadd Hstep) as (Heq & Hsole1 & Hid).
    destruct (step_store_fields _ _ _ HI Hstep) as (Hlen & _ & Hwf1).
    rewrite (new_requests_split _ _ _ _ _ HI Hstep Hrun), requests_to_app, pulls_of_app.
    rewrite Heq. f_equal. rewrite <- Hid.
    apply IH; [by eapply step_Inv|by apply Hwf1|lia|done| |done].
    by rewrite Hid.
Qed.

(** ** Completions *)

Lemma run_unregistered events w w' id :
  Inv w → Forall (λ e, ¬ adds id e) events → nodes_ w !! id = None →
  run w events = Ok w' → nodes_ w' !! id = None.
Proof.
  revert w. induction events as [|e events IH]; intros w HI Hadds Hnone; simpl.
  - by intros [= <-].
  - destruct (step w e) as [w1|] eqn:Hstep; [|done]. intros Hrun.
    apply Forall_cons in Hadds as [Hadd Hadds].
    apply (IH w1); [by eapply step_Inv|done| |done].
    by eapply step_unregistered.
Qed.


(** The handler of a pull leaves the state as the only entry of its
    node, when it was. *)
Lemma handler_sole_entry w j p need_full_report now :
  polling_service_ w !! j = Some (TaskReceived p need_full_report) →
  sole_entry w p →
  sole_entry (NodeResourceReportReceived p need_full_report now (take_posted j w)) p.
Proof.
  intros Hj Hsole q Hin Hid.
  rewrite (NodeResourceReportReceived_held p need_full_report now j w Hj) in Hin.
  rewrite !NodeResourceReportReceived_state_node in Hid. by apply Hsole.
Qed.

(** The states are well addressed after a reply, what follows it and a
    handler. *)
Lemma completion_addressed w e mid w' e' w2 w1 :
  reachable w → step w e = Ok w1 → run w1 mid = Ok w' → step w' e' = Ok w2 →
  Inv w' ∧ Inv w2 ∧ Forall well_addressed (store w') ∧ Forall well_addressed (store w2).
Proof.
  intros Hreach Hstep Hmid Hstep2.
  pose proof (reachable_Inv _ Hreach) as HI.
  destruct (reachable_addressed _ Hreach) as [Hwf _].
  pose proof (step_Inv _ _ _ Hstep HI) as HI1.
  pose proof (run_Inv _ _ _ Hmid HI1) as HI'.
  destruct (step_store_fields _ _ _ HI Hstep) as (_ & _ & Hwf1).
  destruct (run_store_fields _ _ _ HI1 Hmid) as (_ & _ & Hwf').
  destruct (step_store_fields _ _ _ HI' Hstep2) as (_ & _ & Hwf2).
  split_and!; [done|by eapply step_Inv|auto|auto].
Qed.

(** ** The claims *)

(** C1.  Whatever the sequence of membership events, ticks, replies and
    posted handlers (the scans posted by [HandleNodeAdded] and by
    [NodeResourceReportReceived] among them), [inflight_pulls_] never
    exceeds [max_concurrent_pulls_]: not between two events, and not
    after any number of turns of the loop of a scan. *)
Theorem inflight_pulls_never_exceed_max max period events w :
  is_uint64 max →
  run (GcsResourceReportPoller max period) events = Ok w →
  max_concurrent_pulls_ w = max ∧
  (0 <= inflight_pulls_ w <= max)%Z ∧
  (∀ turns now, (inflight_pulls_ (TryPull_loop turns now w) <= max)%Z).
Proof.
  intros Hmax Hrun.
  pose proof (Inv_init max period Hmax) as HI0.
  pose proof (run_Inv _ _ _ Hrun HI0) as HI.
  destruct (run_constants _ _ _ HI0 Hrun) as [Hm _]. simpl in Hm.
  assert (0 <= inflight_pulls_ w)%Z as Hpos by (rewrite (inv_count _ HI); lia).
  split; [done|]. rewrite <- Hm. split; [split; [done|apply HI]|].
  intros turns now.
  destruct (TryPull_loop_scanned turns now w (inv_max _ HI) Hpos) as [popped Hs].
  rewrite <- (scan_max _ _ _ _ Hs). apply (scan_budget _ _ _ _ Hs), HI.
Qed.

Lemma inflight_pulls_never_exceed_max_witness :
  is_uint64 2 ∧
  run (GcsResourceReportPoller 2 100) both_pulled
    = Ok (world_after (GcsResourceReportPoller 2 100) both_pulled) ∧
  max_concurrent_pulls_ (world_after (GcsResourceReportPoller 2 100) both_pulled) = 2%Z ∧
  (0 <= inflight_pulls_ (world_after (GcsResourceReportPoller 2 100) both_pulled) <= 2)%Z ∧
  (∀ turns now,
     (inflight_pulls_
        (TryPull_loop turns now
           (world_after (GcsResourceReportPoller 2 100) both_pulled)) <= 2)%Z).
Proof.
  assert (is_uint64 2) as Hmax by (unfold is_uint64; lia).
  assert (run (GcsResourceReportPoller 2 100) both_pulled
            = Ok (world_after (GcsResourceReportPoller 2 100) both_pulled)) as Hrun
    by (vm_compute; reflexivity).
  split; [exact Hmax|]. split; [exact Hrun|].
  exact (inflight_pulls_never_exceed_max 2 100 both_pulled _ Hmax Hrun).
Defined.

(** As C2 is written, a registered node would have one entry, queued or
    in flight, whatever the events.  Node [a] is added, removed while its
    entry is queued, and added again: both entries pass the test of the
    scan, and two pulls of node [a] are in flight at once. *)
Lemma node_added_again_pulled_twice :
  let w := world_after (GcsResourceReportPoller 2 100) added_again in
  reachable w ∧
  nodes_ w !! "a" = Some 1 ∧
  queued_for w "a" = [] ∧
  inflight_for w "a" = [1; 0] ∧
  length (queued_for w "a") + length (inflight_for w "a") ≠ 1 ∧
  rpc.raylet_id ∘ req_address <$> request_report_calls w = ["a"; "a"] ∧
  ¬ (∀ events w' id,
       run (GcsResourceReportPoller 2 100) events = Ok w' →
       is_Some (nodes_ w' !! id) →
       length (queued_for w' id) + length (inflight_for w' id) = 1).
Proof.
  intros w.
  assert (run (GcsResourceReportPoller 2 100) added_again = Ok w) as Hrun
    by (vm_compute; reflexivity).
  assert (nodes_ w !! "a" = Some 1) as Hreg by (vm_compute; reflexivity).
  assert (length (queued_for w "a") + length (inflight_for w "a") ≠ 1) as Hne
    by (vm_compute; discriminate).
  split.
  { apply (reachable_run 2 100 added_again); [unfold is_uint64; lia|exact Hrun]. }
  split; [exact Hreg|].
  split; [vm_compute; reflexivity|].
  split; [vm_compute; reflexivity|].
  split; [exact Hne|].
  split; [vm_compute; reflexivity|].
  intros Hclaim. apply Hne. apply (Hclaim added_again w "a" Hrun). by exists 1.
Qed.

(** C2, as the code has it.  Every state is held once at most: by the
    queue, or by a pull in flight.  When no [NodeAdded] finds an entry of
    its node id left over from an earlier registration, every registered
    node has exactly one entry, its registered state, which is either
    queued or in flight: no node has two pulls in flight. *)
Theorem one_entry_per_node max period events w id :
  is_uint64 max →
  adds_are_fresh (GcsResourceReportPoller max period) events →
  run (GcsResourceReportPoller max period) events = Ok w →
  is_Some (nodes_ w !! id) →
  NoDup (to_pull_queue_ w ++ inflight_states w) ∧
  (∃ p, nodes_ w !! id = Some p ∧ queued_for w id ++ inflight_for w id = [p]) ∧
  length (queued_for w id) + length (inflight_for w id) = 1.
Proof.
  intros Hmax Hfresh Hrun [p Hp].
  pose proof (Inv_init max period Hmax) as HI0.
  pose proof (run_Inv _ _ _ Hrun HI0) as HI.
  pose proof (run_Excl _ _ _ HI0 (Excl_init max period) Hfresh Hrun) as HX.
  pose proof (Excl_one_place _ _ _ HI HX Hp) as Hone.
  split_and!.
  - apply HI.
  - eauto.
  - rewrite <- length_app, Hone. done.
Qed.

Lemma one_entry_per_node_witness :
  let w := world_after (GcsResourceReportPoller 2 100) added_again_later in
  is_uint64 2 ∧
  adds_are_fresh (GcsResourceReportPoller 2 100) added_again_later ∧
  run (GcsResourceReportPoller 2 100) added_again_later = Ok w ∧
  is_Some (nodes_ w !! "a") ∧
  NoDup (to_pull_queue_ w ++ inflight_states w) ∧
  (∃ p, nodes_ w !! "a" = Some p ∧ queued_for w "a" ++ inflight_for w "a" = [p]) ∧
  length (queued_for w "a") + length (inflight_for w "a") = 1.
Proof.
  intros w.
  assert (is_uint64 2) as Hmax by (unfold is_uint64; lia).
  assert (adds_are_fresh (GcsResourceReportPoller 2 100) added_again_later) as Hfresh.
  { apply (bool_decide_unpack _). vm_compute. exact I. }
  assert (run (GcsResourceReportPoller 2 100) added_again_later = Ok w) as Hrun
    by (vm_compute; reflexivity).
  assert (is_Some (nodes_ w !! "a")) as Hreg.
  { exists 1. vm_compute. reflexivity. }
  split; [exact Hmax|]. split; [exact Hfresh|]. split; [exact Hrun|].
  split; [exact Hreg|].
  exact (one_entry_per_node 2 100 added_again_later w "a" Hmax Hfresh Hrun Hreg).
Defined.

(** As C3 is written, the handler of a pull whose node was removed
    would leave the queue alone.  It does not: node [a] is pulled, removed
    while the pull is in flight, and the handler that runs after the reply
    puts the state of [a] back into the queue. *)
Lemma removed_in_flight_is_requeued :
  let w := world_after (GcsResourceReportPoller 2 100) removed_while_in_flight in
  reachable w ∧
  polling_service_ w !! 1 = Some (TaskReceived 0 false) ∧
  nodes_ w !! state_node w 0 = None ∧
  to_pull_queue_ w = [] ∧
  step w (RunPosted 1 9) = Ok (NodeResourceReportReceived 0 false 9 (take_posted 1 w)) ∧
  to_pull_queue_ (NodeResourceReportReceived 0 false 9 (take_posted 1 w)) = [0] ∧
  ¬ (∀ w' j p need_full_report now,
       reachable w' →
       polling_service_ w' !! j = Some (TaskReceived p need_full_report) →
       nodes_ w' !! state_node w' p = None →
       p ∉ to_pull_queue_
             (NodeResourceReportReceived p need_full_report now (take_posted j w'))).
Proof.
  intros w.
  assert (reachable w) as Hreach.
  { apply (reachable_run 2 100 removed_while_in_flight).
    - unfold is_uint64. lia.
    - vm_compute. reflexivity. }
  assert (polling_service_ w !! 1 = Some (TaskReceived 0 false)) as Hj
    by (vm_compute; reflexivity).
  assert (nodes_ w !! state_node w 0 = None) as Hnone by (vm_compute; reflexivity).
  assert (to_pull_queue_ (NodeResourceReportReceived 0 false 9 (take_posted 1 w)) = [0])
    as Hq by (vm_compute; reflexivity).
  split; [exact Hreach|].
  split; [exact Hj|].
  split; [exact Hnone|].
  split; [vm_compute; reflexivity|].
  split; [vm_compute; reflexivity|].
  split; [exact Hq|].
  intros Hclaim. apply (Hclaim w 1 0 false 9%Z Hreach Hj Hnone).
  rewrite Hq. by left.
Qed.

(** C3, as the code has it.  When the node of a pull in flight has been
    removed, [NodeResourceReportReceived] runs as for any other pull: it
    decrements [inflight_pulls_] and pushes the state to the back of the
    queue, the registry staying as it is.  The entry is left to the scan:
    it is never pulled again as long as the node id is not added again. *)
Theorem removed_in_flight_completion w j p need_full_report now :
  reachable w →
  polling_service_ w !! j = Some (TaskReceived p need_full_report) →
  nodes_ w !! state_node w p = None →
  ∃ w1,
    step w (RunPosted j now) = Ok w1 ∧
    inflight_pulls_ w1 = (inflight_pulls_ w - 1)%Z ∧
    to_pull_queue_ w1 = to_pull_queue_ w ++ [p] ∧
    nodes_ w1 = nodes_ w ∧
    ∀ events w2,
      Forall (λ e, ¬ adds (state_node w p) e) events →
      run w1 events = Ok w2 →
      pulls_of p (new_requests w1 w2) = [].
Proof.
  intros Hreach Hj Hnone. pose proof (reachable_Inv _ Hreach) as HI.
  exists (NodeResourceReportReceived p need_full_report now (take_posted j w)).
  assert (step w (RunPosted j now)
            = Ok (NodeResourceReportReceived p need_full_report now (take_posted j w)))
    as Hstep by (simpl; by rewrite Hj).
  pose proof (step_Inv _ _ _ Hstep HI) as HI1.
  split_and!; try done.
  - simpl. apply uint64_wrap_small.
    pose proof (received_states_delete_Received _ _ _ _ Hj) as Hperm.
    destruct HI as [Hmax Hcount Hbound _ _]. unfold inflight_states in Hcount.
    rewrite length_app, Hperm in Hcount. simpl in Hcount.
    unfold is_uint64 in *. lia.
  - intros events w2 Hadds Hrun.
    apply (unregistered_no_pull events _ _ p HI1); try done.
    + simpl. apply elem_of_app. right. by left.
    + by rewrite NodeResourceReportReceived_state_node.
    + by rewrite NodeResourceReportReceived_state_node.
Qed.

Lemma removed_in_flight_completion_witness :
  let w := world_after (GcsResourceReportPoller 2 100) removed_while_in_flight in
  reachable w ∧
  polling_service_ w !! 1 = Some (TaskReceived 0 false) ∧
  nodes_ w !! state_node w 0 = None ∧
  ∃ w1,
    step w (RunPosted 1 9) = Ok w1 ∧
    inflight_pulls_ w1 = (inflight_pulls_ w - 1)%Z ∧
    to_pull_queue_ w1 = to_pull_queue_ w ++ [0] ∧
    nodes_ w1 = nodes_ w ∧
    ∀ events w2,
      Forall (λ e, ¬ adds (state_node w 0) e) events →
      run w1 events = Ok w2 →
      pulls_of 0 (new_requests w1 w2) = [].
Proof.
  intros w.
  assert (reachable w) as Hreach.
  { apply (reachable_run 2 100 removed_while_in_flight).
    - unfold is_uint64. lia.
    - vm_compute. reflexivity. }
  assert (polling_service_ w !! 1 = Some (TaskReceived 0 false)) as Hj
    by (vm_compute; reflexivity).
  assert (nodes_ w !! state_node w 0 = None) as Hnone by (vm_compute; reflexivity).
  split; [exact Hreach|]. split; [exact Hj|]. split; [exact Hnone|].
  exact (removed_in_flight_completion w 1 0 false 9 Hreach Hj Hnone).
Defined.




(** As C5 is written, a node whose pull succeeded would not be
    requested again before the completion time plus the period, and its
    next request would ask for an incremental report.  Neither holds.
    With an entry of an earlier registration of node [a] queued, the pull
    of the registered state succeeds at clock reading 9, the next pull
    time is 109, and the scan at clock reading 9 requests node [a] through
    the other entry, with a full report.  And when the clock reads -1 and
    the period is 0, the next pull time is the unset value: the next pull
    asks for a full report. *)
Lemma successful_pull_is_followed_by_full_report :
  let v := world_after (GcsResourceReportPoller 1 100) stale_entry_behind in
  let v2 := NodeResourceReportReceived 1 false 9 (take_posted 2 v) in
  let u := world_after (GcsResourceReportPoller 2 0) pulled_before_epoch in
  let u2 := NodeResourceReportReceived 0 false (-1) (take_posted 1 u) in
  reachable v ∧
  polling_service_ v !! 2 = Some (TaskReceived 1 false) ∧
  nodes_ v !! "a" = Some 1 ∧
  state_node v 0 = "a" ∧
  step v (RunPosted 2 9) = Ok v2 ∧
  next_pull_time (store v2 !!! 1%nat) = (9 + poll_period_ms_ v)%Z ∧
  run v2 [Tick 9] = Ok (world_after v2 [Tick 9]) ∧
  Forall (λ t, (t < 9 + poll_period_ms_ v)%Z) (clock_readings [Tick 9]) ∧
  requests_to "a" (new_requests v2 (world_after v2 [Tick 9]))
    = [{| req_state := 0;
          req_address := address (new_pull_state node_a);
          req_initial_report := true |}] ∧
  ¬ (∀ w' j p now events w3,
       reachable w' →
       polling_service_ w' !! j = Some (TaskReceived p false) →
       run (NodeResourceReportReceived p false now (take_posted j w')) events = Ok w3 →
       Forall (λ t, (t < now + poll_period_ms_ w')%Z) (clock_readings events) →
       requests_to (state_node w' p)
         (new_requests (NodeResourceReportReceived p false now (take_posted j w')) w3)
         = []) ∧
  reachable u ∧
  polling_service_ u !! 1 = Some (TaskReceived 0 false) ∧
  (-1 + poll_period_ms_ u)%Z = unset ∧
  step u (RunPosted 1 (-1)) = Ok u2 ∧
  next_pull_time (store u2 !!! 0%nat) = unset ∧
  run u2 [Tick (-1)] = Ok (world_after u2 [Tick (-1)]) ∧
  new_requests u2 (world_after u2 [Tick (-1)])
    = [{| req_state := 0;
          req_address := address (new_pull_state node_a);
          req_initial_report := true |}] ∧
  ¬ (∀ w' j p now events w3 r,
       reachable w' →
       polling_service_ w' !! j = Some (TaskReceived p false) →
       run (NodeResourceReportReceived p false now (take_posted j w')) events = Ok w3 →
       head (pulls_of p
               (new_requests (NodeResourceReportReceived p false now (take_posted j w'))
                  w3)) = Some r →
       req_initial_report r = false).
Proof.
  intros v v2 u u2.
  assert (reachable v) as Hv.
  { apply (reachable_run 1 100 stale_entry_behind); [unfold is_uint64; lia|].
    vm_compute. reflexivity. }
  assert (polling_service_ v !! 2 = Some (TaskReceived 1 false)) as Hj
    by (vm_compute; reflexivity).
  assert (run v2 [Tick 9] = Ok (world_after v2 [Tick 9])) as Hrun
    by (vm_compute; reflexivity).
  assert (Forall (λ t, (t < 9 + poll_period_ms_ v)%Z) (clock_readings [Tick 9])) as Hall.
  { repeat constructor. }
  assert (reachable u) as Hu.
  { apply (reachable_run 2 0 pulled_before_epoch); [unfold is_uint64; lia|].
    vm_compute. reflexivity. }
  assert (polling_service_ u !! 1 = Some (TaskReceived 0 false)) as Hk
    by (vm_compute; reflexivity).
  assert (run u2 [Tick (-1)] = Ok (world_after u2 [Tick (-1)])) as Hrun'
    by (vm_compute; reflexivity).
  split; [exact Hv|]. split; [exact Hj|].
  split; [vm_compute; reflexivity|]. split; [vm_compute; reflexivity|].
  split; [vm_compute; reflexivity|]. split; [vm_compute; reflexivity|].
  split; [exact Hrun|]. split; [exact Hall|].
  split; [vm_compute; reflexivity|].
  split.
  { intros Hclaim. specialize (Hclaim v 2 1 9%Z [Tick 9] _ Hv Hj Hrun Hall).
    vm_compute in Hclaim. discriminate Hclaim. }
  split; [exact Hu|]. split; [exact Hk|].
  split; [vm_compute; reflexivity|]. split; [vm_compute; reflexivity|].
  split; [vm_compute; reflexivity|]. split; [exact Hrun'|].
  split; [vm_compute; reflexivity|].
  intros Hclaim.
  assert (head (pulls_of 0 (new_requests u2 (world_after u2 [Tick (-1)])))
            = Some {| req_state := 0;
                      req_address := address (new_pull_state node_a);
                      req_initial_report := true |}) as Hhead
    by (vm_compute; reflexivity).
  specialize (Hclaim u 1 0 (-1)%Z [Tick (-1)] _ _ Hu Hk Hrun' Hhead).
  discriminate Hclaim.
Qed.

(** C5, as the code has it.  A reply whose status is ok: the callback
    hands the report to [handle_resource_report_], once, and posts the
    handler with [need_full_report] clear; the handler hands nothing
    over, sets [next_pull_time] to its clock reading plus
    [poll_period_ms_] and pushes the state to the back of the queue.  When
    that sum is within [int64_t] and is not the unset value, the state is
    not pulled while the clock readings are before it, the step that
    pulls the state next is a scan whose clock reading is not before it,
    and that pull asks for an incremental report.  When moreover the
    state is the only entry of its node, then as long as the node is not
    added again the requests to the node are the pulls of the state: the
    node is not requested while the clock readings are before the sum, and
    the next request to it asks for an incremental report. *)
Theorem successful_pull_waits_for_period w k p reply mid w' j now :
  reachable w →
  pending_callbacks w !! k = Some p →
  run (request_report_callback p StatusOK reply (take_callback k w)) mid = Ok w' →
  polling_service_ w' !! j = Some (TaskReceived p false) →
  is_int64 (now + poll_period_ms_ w) →
  (now + poll_period_ms_ w)%Z ≠ unset →
  let w1 := request_report_callback p StatusOK reply (take_callback k w) in
  let w2 := NodeResourceReportReceived p false now (take_posted j w') in
  step w (Reply k StatusOK reply) = Ok w1 ∧
  handle_resource_report_calls w1
    = handle_resource_report_calls w ++ [rpc.resources reply] ∧
  polling_service_ w1 = polling_service_ w ++ [TaskReceived p false] ∧
  step w' (RunPosted j now) = Ok w2 ∧
  handle_resource_report_calls w2 = handle_resource_report_calls w' ∧
  request_report_calls w2 = request_report_calls w' ∧
  next_pull_time (store w2 !!! p) = (now + poll_period_ms_ w)%Z ∧
  to_pull_queue_ w2 = to_pull_queue_ w' ++ [p] ∧
  (∀ events w3, run w2 events = Ok w3 →
     (Forall (λ t, (t < now + poll_period_ms_ w)%Z) (clock_readings events) →
      pulls_of p (new_requests w2 w3) = []) ∧
     (∀ r, head (pulls_of p (new_requests w2 w3)) = Some r →
           req_initial_report r = false)) ∧
  (∀ pre e w_pre w_post,
     run w2 pre = Ok w_pre → step w_pre e = Ok w_post →
     pulls_of p (new_requests w2 w_pre) = [] →
     pulls_of p (new_requests w_pre w_post) ≠ [] →
     ∃ t, clock_reading e = Some t ∧ (now + poll_period_ms_ w <= t)%Z) ∧
  (sole_entry w' p →
   ∀ events w3,
     Forall (λ e, ¬ adds (state_node w' p) e) events →
     run w2 events = Ok w3 →
     requests_to (state_node w' p) (new_requests w2 w3)
       = pulls_of p (new_requests w2 w3) ∧
     (Forall (λ t, (t < now + poll_period_ms_ w)%Z) (clock_readings events) →
      requests_to (state_node w' p) (new_requests w2 w3) = []) ∧
     (∀ r, head (requests_to (state_node w' p) (new_requests w2 w3)) = Some r →
           req_initial_report r = false)).
Proof.
  intros Hreach Hk Hmid Hj Htime Hset w1 w2. subst w1 w2.
  pose proof (reachable_Inv _ Hreach) as HI.
  assert (step w (Reply k StatusOK reply) = Ok _) as Hstep
    by (simpl; rewrite Hk; reflexivity).
  pose proof (step_Inv _ _ _ Hstep HI) as HI1.
  pose proof (run_Inv _ _ _ Hmid HI1) as HI'.
  destruct (run_constants _ _ _ HI1 Hmid) as [_ Hperiod].
  simpl in Hperiod.
  destruct (NodeResourceReportReceived_summary w' j p false now HI' Hj)
    as (Hstep2 & HI2 & Hq & Hnext & _ & Hreq & Hrep).
  destruct (completion_addressed _ _ _ _ _ _ _ Hreach Hstep Hmid Hstep2)
    as (_ & _ & _ & Hwf2).
  rewrite Hperiod, int64_wrap_small in Hnext by done.
  assert (p ∈ to_pull_queue_ w' ++ [p]) as Hin.
  { apply elem_of_app. right. by left. }
  rewrite <- Hq in Hin.
  assert (∀ events w3,
            run (NodeResourceReportReceived p false now (take_posted j w')) events
              = Ok w3 →
            (Forall (λ t, (t < now + poll_period_ms_ w)%Z) (clock_readings events) →
             pulls_of p (new_requests
                           (NodeResourceReportReceived p false now (take_posted j w'))
                           w3) = []) ∧
            (∀ r, head (pulls_of p
                          (new_requests
                             (NodeResourceReportReceived p false now (take_posted j w'))
                             w3)) = Some r →
                  req_initial_report r = false)) as Hstate.
  { intros events w3 Hrun.
    destruct (queued_next_pull _ _ _ _ HI2 Hin Hrun) as [Hfirst Hnone].
    split.
    - intros Hall. apply Hnone. by rewrite Hnext.
    - intros r Hr. rewrite (Hfirst r Hr). unfold request_of.
      cbn [req_initial_report]. rewrite Hnext. by apply Z.eqb_neq. }
  split_and!; try done.
  - intros pre e w_pre w_post Hpre Hstep3 Hnone Hsome.
    destruct (next_pull_step _ _ _ _ _ _ HI2 Hin Hpre Hstep3 Hnone Hsome)
      as (t & Hclock & Hdue & _).
    exists t. split; [done|]. by rewrite <- Hnext.
  - intros Hsole events w3 Hadds Hrun.
    assert (p < length (store (NodeResourceReportReceived p false now
                                 (take_posted j w')))) as Hp.
    { pose proof (inv_valid _ HI2) as Hvalid. rewrite Forall_forall in Hvalid.
      apply Hvalid. unfold queued_or_inflight. apply elem_of_app. by left. }
    pose proof (sole_entry_requests events _ w3 p HI2 Hwf2 Hp
                  (handler_sole_entry _ _ _ _ now Hj Hsole)) as Heq.
    rewrite NodeResourceReportReceived_state_node in Heq.
    change (state_node (take_posted j w') p) with (state_node w' p) in Heq.
    specialize (Heq Hadds Hrun).
    destruct (Hstate events w3 Hrun) as [Hnone Hfirst].
    split_and!; [done| |].
    + intros Hall. rewrite Heq. by apply Hnone.
    + intros r. rewrite Heq. apply Hfirst.
Qed.

Lemma successful_pull_waits_for_period_witness :
  let w := world_after (GcsResourceReportPoller 2 100) pull_open in
  let w1 := request_report_callback 0 StatusOK report_a (take_callback 0 w) in
  let w2 := NodeResourceReportReceived 0 false 9 (take_posted 1 w1) in
  (reachable w ∧
   pending_callbacks w !! 0 = Some 0 ∧
   run w1 [] = Ok w1 ∧
   polling_service_ w1 !! 1 = Some (TaskReceived 0 false) ∧
   is_int64 (9 + poll_period_ms_ w) ∧
   (9 + poll_period_ms_ w)%Z ≠ unset) ∧
  sole_entry w1 0 ∧
  step w (Reply 0 StatusOK report_a) = Ok w1 ∧
  handle_resource_report_calls w1
    = handle_resource_report_calls w ++ [rpc.resources report_a] ∧
  polling_service_ w1 = polling_service_ w ++ [TaskReceived 0 false] ∧
  step w1 (RunPosted 1 9) = Ok w2 ∧
  handle_resource_report_calls w2 = handle_resource_report_calls w1 ∧
  request_report_calls w2 = request_report_calls w1 ∧
  next_pull_time (store w2 !!! 0) = (9 + poll_period_ms_ w)%Z ∧
  to_pull_queue_ w2 = to_pull_queue_ w1 ++ [0] ∧
  (∀ events w3, run w2 events = Ok w3 →
     (Forall (λ t, (t < 9 + poll_period_ms_ w)%Z) (clock_readings events) →
      pulls_of 0 (new_requests w2 w3) = []) ∧
     (∀ r, head (pulls_of 0 (new_requests w2 w3)) = Some r →
           req_initial_report r = false)) ∧
  (∀ pre e w_pre w_post,
     run w2 pre = Ok w_pre → step w_pre e = Ok w_post →
     pulls_of 0 (new_requests w2 w_pre) = [] →
     pulls_of 0 (new_requests w_pre w_post) ≠ [] →
     ∃ t, clock_reading e = Some t ∧ (9 + poll_period_ms_ w <= t)%Z) ∧
  (∀ events w3,
     Forall (λ e, ¬ adds (state_node w1 0) e) events →
     run w2 events = Ok w3 →
     requests_to (state_node w1 0) (new_requests w2 w3)
       = pulls_of 0 (new_requests w2 w3) ∧
     (Forall (λ t, (t < 9 + poll_period_ms_ w)%Z) (clock_readings events) →
      requests_to (state_node w1 0) (new_requests w2 w3) = []) ∧
     (∀ r, head (requests_to (state_node w1 0) (new_requests w2 w3)) = Some r →
           req_initial_report r = false)).
Proof.
  intros w w1 w2.
  assert (reachable w) as Hreach.
  { apply (reachable_run 2 100 pull_open); [unfold is_uint64; lia|].
    vm_compute. reflexivity. }
  assert (pending_callbacks w !! 0 = Some 0) as Hk by (vm_compute; reflexivity).
  assert (run w1 [] = Ok w1) as Hmid by reflexivity.
  assert (polling_service_ w1 !! 1 = Some (TaskReceived 0 false)) as Hj
    by (vm_compute; reflexivity).
  assert (is_int64 (9 + poll_period_ms_ w)) as Htime
    by (vm_compute; split; [discriminate|reflexivity]).
  assert ((9 + poll_period_ms_ w)%Z ≠ unset) as Hset by (vm_compute; discriminate).
  assert (sole_entry w1 0) as Hsole.
  { assert (queued_or_inflight w1 = [0]) as Hheld by (vm_compute; reflexivity).
    intros q Hin _. rewrite Hheld in Hin. by apply list_elem_of_singleton in Hin. }
  destruct (successful_pull_waits_for_period w 0 0 report_a [] w1 1 9
              Hreach Hk Hmid Hj Htime Hset)
    as (H1 & H2 & H3 & H4 & H5 & H6 & H7 & H8 & H9 & H10 & H11).
  split; [by split_and!|]. split; [exact Hsole|].
  split; [exact H1|]. split; [exact H2|]. split; [exact H3|]. split; [exact H4|].
  split; [exact H5|]. split; [exact H6|]. split; [exact H7|]. split; [exact H8|].
  split; [exact H9|]. split; [exact H10|]. exact (H11 Hsole).
Defined.



(** C7.  A reply whose status reads "Resources not changed": the
    callback hands nothing to [handle_resource_report_] and posts the
    handler with [need_full_report] clear; the handler hands nothing over
    either and sets [next_pull_time] to its clock reading plus
    [poll_period_ms_] (a sum within [int64_t]). *)
Theorem unchanged_pull_rescheduled w k p reply mid w' j now :
  reachable w →
  pending_callbacks w !! k = Some p →
  run (request_report_callback p (StatusError "Resources not changed") reply
         (take_callback k w)) mid = Ok w' →
  polling_service_ w' !! j = Some (TaskReceived p false) →
  is_int64 (now + poll_period_ms_ w) →
  let w1 :=
    request_report_callback p (StatusError "Resources not changed") reply
      (take_callback k w) in
  let w2 := NodeResourceReportReceived p false now (take_posted j w') in
  step w (Reply k (StatusError "Resources not changed") reply) = Ok w1 ∧
  handle_resource_report_calls w1 = handle_resource_report_calls w ∧
  polling_service_ w1 = polling_service_ w ++ [TaskReceived p false] ∧
  step w' (RunPosted j now) = Ok w2 ∧
  handle_resource_report_calls w2 = handle_resource_report_calls w' ∧
  next_pull_time (store w2 !!! p) = (now + poll_period_ms_ w)%Z ∧
  to_pull_queue_ w2 = to_pull_queue_ w' ++ [p].
Proof.
  intros Hreach Hk Hmid Hj Htime w1 w2. subst w1 w2.
  pose proof (reachable_Inv _ Hreach) as HI.
  assert (step w (Reply k (StatusError "Resources not changed") reply) = Ok _)
    as Hstep by (simpl; rewrite Hk; reflexivity).
  pose proof (step_Inv _ _ _ Hstep HI) as HI1.
  pose proof (run_Inv _ _ _ Hmid HI1) as HI'.
  destruct (run_constants _ _ _ HI1 Hmid) as [_ Hperiod].
  simpl in Hperiod.
  destruct (NodeResourceReportReceived_summary w' j p false now HI' Hj)
    as (Hstep2 & HI2 & Hq & Hnext & _ & _ & Hrep).
  rewrite Hperiod, int64_wrap_small in Hnext by done.
  by split_and!.
Qed.

Lemma unchanged_pull_rescheduled_witness :
  let w := world_after (GcsResourceReportPoller 2 100) pull_open in
  let w1 := request_report_callback 0 (StatusError "Resources not changed") report_a
              (take_callback 0 w) in
  let w2 := NodeResourceReportReceived 0 false 9 (take_posted 1 w1) in
  reachable w ∧
  pending_callbacks w !! 0 = Some 0 ∧
  run w1 [] = Ok w1 ∧
  polling_service_ w1 !! 1 = Some (TaskReceived 0 false) ∧
  is_int64 (9 + poll_period_ms_ w) ∧
  step w (Reply 0 (StatusError "Resources not changed") report_a) = Ok w1 ∧
  handle_resource_report_calls w1 = handle_resource_report_calls w ∧
  polling_service_ w1 = polling_service_ w ++ [TaskReceived 0 false] ∧
  step w1 (RunPosted 1 9) = Ok w2 ∧
  handle_resource_report_calls w2 = handle_resource_report_calls w1 ∧
  next_pull_time (store w2 !!! 0) = (9 + poll_period_ms_ w)%Z ∧
  to_pull_queue_ w2 = to_pull_queue_ w1 ++ [0].
Proof.
  intros w w1 w2.
  assert (reachable w) as Hreach.
  { apply (reachable_run 2 100 pull_open); [unfold is_uint64; lia|].
    vm_compute. reflexivity. }
  assert (pending_callbacks w !! 0 = Some 0) as Hk by (vm_compute; reflexivity).
  assert (run w1 [] = Ok w1) as Hmid by reflexivity.
  assert (polling_service_ w1 !! 1 = Some (TaskReceived 0 false)) as Hj
    by (vm_compute; reflexivity).
  assert (is_int64 (9 + poll_period_ms_ w)) as Htime
    by (vm_compute; split; [discriminate|reflexivity]).
  split; [exact Hreach|]. split; [exact Hk|]. split; [exact Hmid|].
  split; [exact Hj|]. split; [exact Htime|].
  exact (unchanged_pull_rescheduled w 0 0 report_a [] w1 1 9
           Hreach Hk Hmid Hj Htime).
Defined.

(** As C8 is written, the entry of a node that was removed while the
    entry was queued would be discarded when the scan dequeues it.  It is
    not when the node has been added again by then: node [a] is added,
    removed while its entry is queued, and added again; the scan finds the
    node id of the old entry in [nodes_], requests the node through it
    and counts the pull. *)
Lemma removed_then_added_entry_is_pulled :
  let w0 := world_after (GcsResourceReportPoller 2 100) [NodeAdded node_a] in
  let w := world_after (GcsResourceReportPoller 2 100) added_again_queued in
  reachable w0 ∧
  to_pull_queue_ w0 = [0] ∧
  state_node w0 0 = FromBinary (rpc.node_id node_a) ∧
  run w0 [NodeRemoved node_a; NodeAdded node_a] = Ok w ∧
  to_pull_queue_ w = [1; 0] ∧
  nodes_ w !! "a" = Some 1 ∧
  pulls_of 0 (new_requests w (TryPullResourceReport 5 w))
    = [{| req_state := 0;
          req_address := address (new_pull_state node_a);
          req_initial_report := true |}] ∧
  inflight_pulls_ w = 0%Z ∧
  inflight_pulls_ (TryPullResourceReport 5 w) = 2%Z ∧
  pending_callbacks (TryPullResourceReport 5 w) = [1; 0] ∧
  ¬ (∀ v0 node_info p mid v now,
       reachable v0 →
       p ∈ to_pull_queue_ v0 →
       state_node v0 p = FromBinary (rpc.node_id node_info) →
       run v0 (NodeRemoved node_info :: mid) = Ok v →
       pulls_of p (new_requests v (TryPullResourceReport now v)) = []).
Proof.
  intros w0 w.
  assert (reachable w0) as Hreach.
  { apply (reachable_run 2 100 [NodeAdded node_a]); [unfold is_uint64; lia|].
    vm_compute. reflexivity. }
  assert (run w0 [NodeRemoved node_a; NodeAdded node_a] = Ok w) as Hrun
    by (vm_compute; reflexivity).
  split; [exact Hreach|]. split; [vm_compute; reflexivity|].
  split; [vm_compute; reflexivity|]. split; [exact Hrun|].
  split; [vm_compute; reflexivity|]. split; [vm_compute; reflexivity|].
  split; [vm_compute; reflexivity|]. split; [vm_compute; reflexivity|].
  split; [vm_compute; reflexivity|]. split; [vm_compute; reflexivity|].
  intros Hclaim.
  assert (0 ∈ to_pull_queue_ w0) as Hin by (vm_compute; by left).
  assert (state_node w0 0 = FromBinary (rpc.node_id node_a)) as Hid
    by (vm_compute; reflexivity).
  specialize (Hclaim w0 node_a 0 [NodeAdded node_a] w 5%Z Hreach Hin Hid Hrun).
  vm_compute in Hclaim. discriminate Hclaim.
Qed.

(** C8, as the code has it.  A node is removed while its entry is
    queued and is not added again before the scan dequeues the entry.
    Then the node id of the entry is not in [nodes_], the entry has not
    been pulled since the removal, and the scan drops it: the iteration
    pops it, leaves [inflight_pulls_] alone and makes no request, and the
    scan goes on as the scan of the rest of the queue.  The scan as a
    whole makes no request for the entry and holds it nowhere;
    [inflight_pulls_] grows by the number of requests made; and the next
    entry is looked at as if it had been the first: if it is due and
    its node is registered it is pulled, first of all, and if it is not
    due the scan stops with the rest of the queue as it was. *)
Theorem removed_entry_is_discarded w0 node_info p mid w now rest :
  reachable w0 →
  p ∈ to_pull_queue_ w0 →
  state_node w0 p = FromBinary (rpc.node_id node_info) →
  Forall (λ e, ¬ adds (state_node w0 p) e) mid →
  run w0 (NodeRemoved node_info :: mid) = Ok w →
  to_pull_queue_ w = p :: rest →
  (inflight_pulls_ w < max_concurrent_pulls_ w)%Z →
  (next_pull_time (store w !!! p) <= now)%Z →
  nodes_ w !! state_node w p = None ∧
  pulls_of p (new_requests w0 w) = [] ∧
  TryPull_iteration now w = Some (pop_front w) ∧
  to_pull_queue_ (pop_front w) = rest ∧
  inflight_pulls_ (pop_front w) = inflight_pulls_ w ∧
  request_report_calls (pop_front w) = request_report_calls w ∧
  pending_callbacks (pop_front w) = pending_callbacks w ∧
  TryPullResourceReport now w = TryPullResourceReport now (pop_front w) ∧
  pulls_of p (new_requests w (TryPullResourceReport now w)) = [] ∧
  (p ∉ queued_or_inflight (TryPullResourceReport now w)) ∧
  inflight_pulls_ (TryPullResourceReport now w)
    = (inflight_pulls_ w
       + Z.of_nat (length (new_requests w (TryPullResourceReport now w))))%Z ∧
  (∀ q rest', rest = q :: rest' →
     registered w q → (next_pull_time (store w !!! q) <= now)%Z →
     head (new_requests w (TryPullResourceReport now w)) = Some (request_of w q)) ∧
  (∀ q rest', rest = q :: rest' →
     (now < next_pull_time (store w !!! q))%Z →
     to_pull_queue_ (TryPullResourceReport now w) = rest ∧
     new_requests w (TryPullResourceReport now w) = []).
Proof.
  intros Hreach Hp Hid Hadds Hrun Hq Hbudget Hdue.
  pose proof (reachable_Inv _ Hreach) as HI0.
  simpl in Hrun.
  destruct (HandleNodeRemoved_Ok node_info w0)
    as (wr & Hrem & Hnodes & Hqr & _ & Hsr & _ & _ & Hrr).
  rewrite Hrem in Hrun.
  assert (step w0 (NodeRemoved node_info) = Ok wr) as Hstep by exact Hrem.
  pose proof (step_Inv _ _ _ Hstep HI0) as HIr.
  pose proof (run_Inv _ _ _ Hrun HIr) as HI.
  assert (state_node wr p = state_node w0 p) as Hidr.
  { unfold state_node. by rewrite Hsr. }
  assert (p < length (store wr)) as Hlt.
  { pose proof (inv_valid _ HIr) as Hvalid. rewrite Forall_forall in Hvalid.
    apply Hvalid. unfold queued_or_inflight. apply elem_of_app. left. by rewrite Hqr. }
  assert (state_node w p = state_node w0 p) as Hidw.
  { destruct (run_store_fields _ _ _ HIr Hrun) as (_ & Hsame & _).
    destruct (Hsame p Hlt) as [Hnode _]. unfold state_node.
    etransitivity; [exact Hnode|]. by rewrite Hsr. }
  assert (nodes_ wr !! state_node w0 p = None) as Hnoner.
  { rewrite Hnodes, Hid. apply lookup_delete_eq. }
  assert (nodes_ w !! state_node w p = None) as Hnone.
  { rewrite Hidw. exact (run_unregistered mid wr w _ HIr Hadds Hnoner Hrun). }
  assert (pulls_of p (new_requests w0 w) = []) as Hnopull.
  { assert (new_requests w0 w = new_requests wr w) as ->.
    { unfold new_requests. by rewrite Hrr. }
    apply (unregistered_no_pull mid wr w p HIr).
    - by rewrite Hqr.
    - by rewrite Hidr.
    - by rewrite Hidr.
    - done. }
  assert (TryPull_iteration now w = Some (pop_front w)) as Hit.
  { unfold TryPull_iteration. rewrite Hq.
    destruct (Z.ltb_spec (inflight_pulls_ w) (max_concurrent_pulls_ w)); [|lia].
    destruct (Z.ltb_spec now (next_pull_time (store w !!! p))); [lia|].
    simpl. unfold state_node in Hnone.
    apply count_false in Hnone. by rewrite Hnone. }
  assert (to_pull_queue_ (pop_front w) = rest) as Hqpop.
  { simpl. by rewrite Hq. }
  pose proof (TryPullResourceReport_unfold _ _ _ Hit) as Hunfold.
  assert (0 <= inflight_pulls_ w)%Z as Hpos by (rewrite (inv_count _ HI); lia).
  destruct (TryPull_iteration_scanned _ _ _ (inv_max _ HI) Hpos Hit) as [p1 Hs1].
  pose proof (scanned_Inv _ _ _ _ Hs1 HI) as HIpop.
  destruct (TryPullResourceReport_scanned now (pop_front w) (inv_max _ HI) Hpos)
    as [popped Hs].
  rewrite <- Hunfold in Hs.
  destruct Hs as [_ _ _ _ Hposted _ Hqueue _ Hrequests Hcallbacks Hinflight _].
  cbn [pop_front to_pull_queue_ request_report_calls pending_callbacks
       inflight_pulls_ polling_service_] in Hqueue, Hrequests, Hcallbacks,
       Hinflight, Hposted.
  rewrite Hq in Hqueue. cbn [tail] in Hqueue.
  change (request_of (pop_front w)) with (request_of w) in Hrequests.
  assert (filter (registered (pop_front w)) popped = filter (registered w) popped)
    as Hfilter by done.
  rewrite Hfilter in Hrequests, Hcallbacks, Hinflight.
  pose proof (new_requests_app _ _ _ Hrequests) as Hnews.
  pose proof (inv_nodup _ HI) as Hnodup. unfold queued_or_inflight in Hnodup.
  rewrite Hq, Hqueue in Hnodup. cbn [app] in Hnodup.
  apply NoDup_cons in Hnodup as [Hfresh _].
  rewrite !not_elem_of_app in Hfresh. destruct Hfresh as [[Hnp Hnq] Hni].
  split_and!; try done.
  - rewrite Hnews. apply pulls_of_requests_notin.
    intros [_ ?]%list_elem_of_filter. done.
  - unfold queued_or_inflight, inflight_states.
    rewrite Hcallbacks, Hposted, !not_elem_of_app.
    unfold inflight_states in Hni. rewrite not_elem_of_app in Hni.
    destruct Hni as [Hnc Hnr]. split_and!; try done.
    intros [_ ?]%list_elem_of_filter. done.
  - rewrite Hinflight, Hnews. by rewrite length_fmap.
  - intros q rest' -> Hreg Hqdue. rewrite Hunfold.
    apply (front_is_pulled_first now (pop_front w) q rest' HIpop Hqpop Hbudget Hqdue Hreg).
  - intros q rest' -> Hnot.
    assert (TryPull_iteration now (pop_front w) = None) as Hblocked.
    { unfold TryPull_iteration. rewrite Hqpop.
      cbn [pop_front inflight_pulls_ max_concurrent_pulls_ store].
      destruct (Z.ltb_spec (inflight_pulls_ w) (max_concurrent_pulls_ w)); [|done].
      destruct (Z.ltb_spec now (next_pull_time (store w !!! q))); [done|lia]. }
    assert (TryPullResourceReport now w = pop_front w) as ->.
    { rewrite Hunfold. unfold TryPullResourceReport. rewrite Hqpop. simpl.
      by rewrite Hblocked. }
    split; [done|]. unfold new_requests. simpl. by rewrite drop_all.
Qed.

Lemma removed_entry_is_discarded_witness :
  let w0 := world_after (GcsResourceReportPoller 2 100) both_queued in
  let w := world_after w0 [NodeRemoved node_a] in
  (reachable w0 ∧
   1 ∈ to_pull_queue_ w0 ∧
   state_node w0 1 = FromBinary (rpc.node_id node_a) ∧
   Forall (λ e, ¬ adds (state_node w0 1) e) [] ∧
   run w0 [NodeRemoved node_a] = Ok w ∧
   to_pull_queue_ w = [1; 0] ∧
   (inflight_pulls_ w < max_concurrent_pulls_ w)%Z ∧
   (next_pull_time (store w !!! 1%nat) <= 5)%Z) ∧
  (registered w 0 ∧ (next_pull_time (store w !!! 0%nat) <= 5)%Z) ∧
  nodes_ w !! state_node w 1 = None ∧
  pulls_of 1 (new_requests w0 w) = [] ∧
  TryPull_iteration 5 w = Some (pop_front w) ∧
  to_pull_queue_ (pop_front w) = [0] ∧
  inflight_pulls_ (pop_front w) = inflight_pulls_ w ∧
  request_report_calls (pop_front w) = request_report_calls w ∧
  pending_callbacks (pop_front w) = pending_callbacks w ∧
  TryPullResourceReport 5 w = TryPullResourceReport 5 (pop_front w) ∧
  pulls_of 1 (new_requests w (TryPullResourceReport 5 w)) = [] ∧
  (1 ∉ queued_or_inflight (TryPullResourceReport 5 w)) ∧
  inflight_pulls_ (TryPullResourceReport 5 w)
    = (inflight_pulls_ w
       + Z.of_nat (length (new_requests w (TryPullResourceReport 5 w))))%Z ∧
  head (new_requests w (TryPullResourceReport 5 w)) = Some (request_of w 0).
Proof.
  intros w0 w.
  assert (reachable w0) as Hreach.
  { apply (reachable_run 2 100 both_queued); [unfold is_uint64; lia|].
    vm_compute. reflexivity. }
  assert (1 ∈ to_pull_queue_ w0) as Hp by (vm_compute; by left).
  assert (state_node w0 1 = FromBinary (rpc.node_id node_a)) as Hid
    by (vm_compute; reflexivity).
  assert (Forall (λ e, ¬ adds (state_node w0 1) e) []) as Hadds by constructor.
  assert (run w0 [NodeRemoved node_a] = Ok w) as Hrun by (vm_compute; reflexivity).
  assert (to_pull_queue_ w = [1; 0]) as Hq by (vm_compute; reflexivity).
  assert (inflight_pulls_ w < max_concurrent_pulls_ w)%Z as Hbudget
    by (vm_compute; reflexivity).
  assert (next_pull_time (store w !!! 1%nat) <= 5)%Z as Hdue
    by (vm_compute; discriminate).
  assert (registered w 0) as Hreg by (exists 0; vm_compute; reflexivity).
  assert (next_pull_time (store w !!! 0%nat) <= 5)%Z as Hdue0
    by (vm_compute; discriminate).
  destruct (removed_entry_is_discarded w0 node_a 1 [] w 5 [0]
              Hreach Hp Hid Hadds Hrun Hq Hbudget Hdue)
    as (H1 & H2 & H3 & H4 & H5 & H6 & H7 & H8 & H9 & H10 & H11 & H12 & _).
  split; [by split_and!|]. split; [by split|].
  split; [exact H1|]. split; [exact H2|]. split; [exact H3|]. split; [exact H4|].
  split; [exact H5|]. split; [exact H6|]. split; [exact H7|]. split; [exact H8|].
  split; [exact H9|]. split; [exact H10|]. split; [exact H11|].
  exact (H12 0 [] eq_refl Hreg Hdue0).
Defined.

(** C9.  [HandleNodeAdded] fails fatally exactly when the node id is
    already in [nodes_]; otherwise it makes a state whose
    [next_pull_time] is unset, registers it and pushes it to the front of
    the queue (and posts a scan). *)
Theorem HandleNodeAdded_fatal_iff_registered node_info w :
  ((∃ message, HandleNodeAdded node_info w = Fatal message) ↔
   is_Some (nodes_ w !! FromBinary (rpc.node_id node_info))) ∧
  match HandleNodeAdded node_info w with
  | Fatal _ => is_Some (nodes_ w !! FromBinary (rpc.node_id node_info))
  | Ok w' =>
      nodes_ w !! FromBinary (rpc.node_id node_info) = None ∧
      nodes_ w' = <[FromBinary (rpc.node_id node_info) := length (store w)]> (nodes_ w) ∧
      store w' =
        store w ++
          [{| node_id := FromBinary (rpc.node_id node_info);
              address :=
                {| rpc.raylet_id := rpc.node_id node_info;
                   rpc.ip_address := rpc.node_manager_address node_info;
                   rpc.port := rpc.node_manager_port node_info |};
              next_pull_time := unset |}] ∧
      to_pull_queue_ w' = length (store w) :: to_pull_queue_ w ∧
      polling_service_ w' = polling_service_ w ++ [TaskTryPull] ∧
      inflight_pulls_ w' = inflight_pulls_ w ∧
      request_report_calls w' = request_report_calls w
  end.
Proof.
  unfold HandleNodeAdded. simpl.
  destruct (count (nodes_ w) (FromBinary (rpc.node_id node_info))) eqn:Hc.
  - apply count_true in Hc. split; [|done]. split; [done|]. intros _. eauto.
  - apply count_false in Hc. split; [|done]. rewrite Hc. split.
    + by intros [? ?].
    + by intros [? ?].
Qed.

(** C10.  [HandleNodeRemoved] for a node id that is not in [nodes_]
    passes its check and changes nothing: the registry, the queue and
    [inflight_pulls_] are as before. *)
Theorem HandleNodeRemoved_unknown_node node_info w :
  nodes_ w !! FromBinary (rpc.node_id node_info) = None →
  HandleNodeRemoved node_info w = Ok w.
Proof.
  intros Hnone. unfold HandleNodeRemoved.
  rewrite delete_id by done.
  assert (count (nodes_ w) (FromBinary (rpc.node_id node_info)) = false) as ->
    by by apply count_false.
  by destruct w.
Qed.

Lemma HandleNodeRemoved_unknown_node_witness :
  nodes_ (world_after (GcsResourceReportPoller 2 100) [NodeAdded node_a])
    !! FromBinary (rpc.node_id node_b) = None ∧
  HandleNodeRemoved node_b (world_after (GcsResourceReportPoller 2 100) [NodeAdded node_a])
    = Ok (world_after (GcsResourceReportPoller 2 100) [NodeAdded node_a]).
Proof.
  assert (nodes_ (world_after (GcsResourceReportPoller 2 100) [NodeAdded node_a])
            !! FromBinary (rpc.node_id node_b) = None) as Hnone
    by (vm_compute; reflexivity).
  split; [exact Hnone|].
  exact (HandleNodeRemoved_unknown_node node_b _ Hnone).
Defined.

(** ** Further properties of the scan *)

(** X1.  A scan changes nothing exactly when it is blocked at its first
    turn: the budget is used up, the queue is empty, or the entry at the
    front is not due yet, whatever is queued behind it. *)
Theorem scan_is_noop_iff_blocked cur_time w :
  TryPullResourceReport cur_time w = w ↔ scan_blocked cur_time w.
Proof.
  rewrite <- TryPull_iteration_None. unfold TryPullResourceReport. split.
  - intros Heq. destruct (TryPull_iteration cur_time w) as [w1|] eqn:Hit; [|done].
    exfalso. pose proof (TryPull_iteration_shrinks _ _ _ Hit) as Hlen.
    destruct (to_pull_queue_ w) as [|p q] eqn:Hq; [done|].
    simpl in Heq. rewrite Hit in Heq.
    pose proof (TryPull_loop_queue_length (length q) cur_time w1) as Hle.
    rewrite Heq, Hq in Hle. simpl in *. lia.
  - intros Hit. destruct (length (to_pull_queue_ w)); simpl; [done|]. by rewrite Hit.
Qed.

(** X2.  When a scan returns it is blocked: it has used up the budget,
    emptied the queue, or stopped at an entry that is not due yet.  So a
    second scan at the same clock reading changes nothing. *)
Theorem scan_runs_until_blocked cur_time w :
  scan_blocked cur_time (TryPullResourceReport cur_time w) ∧
  TryPullResourceReport cur_time (TryPullResourceReport cur_time w)
    = TryPullResourceReport cur_time w.
Proof.
  assert (scan_blocked cur_time (TryPullResourceReport cur_time w)) as Hb
    by apply TryPull_iteration_None, TryPull_terminates.
  split; [done|]. revert Hb. generalize (TryPullResourceReport cur_time w).
  intros w' Hb. apply TryPull_iteration_None in Hb.
  unfold TryPullResourceReport. destruct (length (to_pull_queue_ w')); simpl; [done|].
  by rewrite Hb.
Qed.

(** X3.  What a scan does in a reachable world: it pops a front part of
    the queue, every entry of it due; it calls [request_report_] for the
    popped entries whose node is registered, in the order of the queue,
    and counts them in [inflight_pulls_]; the other popped entries are
    dropped.  It leaves the registry, the states, the posted handlers and
    the reports alone. *)
Theorem scan_pops_due_front cur_time w :
  reachable w →
  ∃ popped,
    to_pull_queue_ w = popped ++ to_pull_queue_ (TryPullResourceReport cur_time w) ∧
    Forall (λ p, (next_pull_time (store w !!! p) <= cur_time)%Z) popped ∧
    request_report_calls (TryPullResourceReport cur_time w) =
      request_report_calls w ++ (request_of w <$> filter (registered w) popped) ∧
    pending_callbacks (TryPullResourceReport cur_time w) =
      pending_callbacks w ++ filter (registered w) popped ∧
    inflight_pulls_ (TryPullResourceReport cur_time w) =
      (inflight_pulls_ w + Z.of_nat (length (filter (registered w) popped)))%Z ∧
    nodes_ (TryPullResourceReport cur_time w) = nodes_ w ∧
    store (TryPullResourceReport cur_time w) = store w ∧
    polling_service_ (TryPullResourceReport cur_time w) = polling_service_ w ∧
    handle_resource_report_calls (TryPullResourceReport cur_time w)
      = handle_resource_report_calls w.
Proof.
  intros Hreach. pose proof (reachable_Inv _ Hreach) as HI.
  destruct (TryPullResourceReport_scanned cur_time w (inv_max _ HI)) as [popped []].
  { rewrite (inv_count _ HI). lia. }
  exists popped. by split_and!.
Qed.

Lemma scan_pops_due_front_witness :
  let w := world_after (GcsResourceReportPoller 2 100) removed_while_queued in
  reachable w ∧
  ∃ popped,
    to_pull_queue_ w = popped ++ to_pull_queue_ (TryPullResourceReport 5 w) ∧
    Forall (λ p, (next_pull_time (store w !!! p) <= 5)%Z) popped ∧
    request_report_calls (TryPullResourceReport 5 w) =
      request_report_calls w ++ (request_of w <$> filter (registered w) popped) ∧
    pending_callbacks (TryPullResourceReport 5 w) =
      pending_callbacks w ++ filter (registered w) popped ∧
    inflight_pulls_ (TryPullResourceReport 5 w) =
      (inflight_pulls_ w + Z.of_nat (length (filter (registered w) popped)))%Z ∧
    nodes_ (TryPullResourceReport 5 w) = nodes_ w ∧
    store (TryPullResourceReport 5 w) = store w ∧
    polling_service_ (TryPullResourceReport 5 w) = polling_service_ w ∧
    handle_resource_report_calls (TryPullResourceReport 5 w)
      = handle_resource_report_calls w.
Proof.
  intros w.
  assert (reachable w) as Hreach.
  { apply (reachable_run 2 100 removed_while_queued); [unfold is_uint64; lia|].
    vm_compute. reflexivity. }
  split; [exact Hreach|].
  exact (scan_pops_due_front 5 w Hreach).
Defined.

(** X4.  When every queued entry is registered and due, a scan pulls as
    many entries as the budget allows and no more: the first
    [min budget (length queue)] entries, in the order of the queue. *)
Theorem scan_uses_the_budget cur_time w :
  reachable w →
  Forall (λ p, registered w p ∧ (next_pull_time (store w !!! p) <= cur_time)%Z)
    (to_pull_queue_ w) →
  to_pull_queue_ (TryPullResourceReport cur_time w)
    = drop (budget w `min` length (to_pull_queue_ w)) (to_pull_queue_ w) ∧
  request_report_calls (TryPullResourceReport cur_time w)
    = request_report_calls w ++
        (request_of w <$> take (budget w `min` length (to_pull_queue_ w)) (to_pull_queue_ w)) ∧
  inflight_pulls_ (TryPullResourceReport cur_time w)
    = (inflight_pulls_ w + Z.of_nat (budget w `min` length (to_pull_queue_ w)))%Z.
Proof.
  intros Hreach Hall. pose proof (reachable_Inv _ Hreach) as HI.
  assert (0 <= inflight_pulls_ w)%Z as Hpos by (rewrite (inv_count _ HI); lia).
  destruct (TryPullResourceReport_scanned cur_time w (inv_max _ HI) Hpos)
    as [popped Hs].
  pose proof (TryPull_terminates cur_time w) as Hblocked.
  apply TryPull_iteration_None in Hblocked.
  pose proof (inv_bound _ HI) as Hbound.
  destruct Hs. specialize (scan_budget0 Hbound).
  set (w' := TryPullResourceReport cur_time w) in *.
  rewrite scan_queue0 in Hall. apply Forall_app in Hall as [Hpopped Hrest].
  assert (filter (registered w) popped = popped) as Hf.
  { apply filter_all. eapply Forall_impl; [exact Hpopped|]. by intros p [? ?]. }
  rewrite Hf in *.
  assert (budget w `min` length (to_pull_queue_ w) = length popped) as Hn.
  { unfold budget. rewrite scan_queue0, length_app.
    destruct Hblocked as [Hfull|[Hempty|(q & rest & Hq & Hnot)]].
    - rewrite scan_max0 in Hfull. lia.
    - rewrite Hempty. simpl. rewrite scan_max0 in scan_budget0. lia.
    - exfalso. rewrite Hq in Hrest. apply Forall_cons in Hrest as [[_ Hdue] _].
      rewrite scan_store0 in Hnot. lia. }
  rewrite Hn, scan_queue0. split_and!.
  - by rewrite drop_app_length.
  - by rewrite scan_requests0, take_app_length.
  - done.
Qed.

Lemma scan_uses_the_budget_witness :
  let w := world_after (GcsResourceReportPoller 1 100) [NodeAdded node_a; NodeAdded node_b] in
  reachable w ∧
  Forall (λ p, registered w p ∧ (next_pull_time (store w !!! p) <= 5)%Z)
    (to_pull_queue_ w) ∧
  to_pull_queue_ (TryPullResourceReport 5 w)
    = drop (budget w `min` length (to_pull_queue_ w)) (to_pull_queue_ w) ∧
  request_report_calls (TryPullResourceReport 5 w)
    = request_report_calls w ++
        (request_of w <$> take (budget w `min` length (to_pull_queue_ w)) (to_pull_queue_ w)) ∧
  inflight_pulls_ (TryPullResourceReport 5 w)
    = (inflight_pulls_ w + Z.of_nat (budget w `min` length (to_pull_queue_ w)))%Z.
Proof.
  intros w.
  assert (reachable w) as Hreach.
  { apply (reachable_run 1 100 [NodeAdded node_a; NodeAdded node_b]);
      [unfold is_uint64; lia|]. vm_compute. reflexivity. }
  assert (Forall (λ p, registered w p ∧ (next_pull_time (store w !!! p) <= 5)%Z)
            (to_pull_queue_ w)) as Hall.
  { apply (bool_decide_unpack _). vm_compute. exact I. }
  split; [exact Hreach|]. split; [exact Hall|].
  exact (scan_uses_the_budget 5 w Hreach Hall).
Defined.

(** X5.  Scans compose along the clock: a scan followed by a scan at a
    later (or the same) clock reading leaves the world that the later scan
    alone would have left.  What an earlier scan pulled, the later one
    would have pulled too, in the same order. *)
Theorem later_scan_absorbs_earlier_scan now now' w :
  (now <= now')%Z →
  TryPullResourceReport now' (TryPullResourceReport now w)
    = TryPullResourceReport now' w.
Proof.
  intros Hle. unfold TryPullResourceReport at 2.
  generalize (length (to_pull_queue_ w)). intros fuel. revert w.
  induction fuel as [|fuel IH]; intros w; simpl; [done|].
  destruct (TryPull_iteration now w) as [w1|] eqn:Hit; [|done].
  rewrite IH. symmetry. apply TryPullResourceReport_unfold.
  by eapply TryPull_iteration_later.
Qed.

Lemma later_scan_absorbs_earlier_scan_witness :
  let w := world_after (GcsResourceReportPoller 2 100)
             (NodeAdded node_a :: pulled_once ++ [NodeAdded node_b]) in
  (5 <= 200)%Z ∧
  TryPullResourceReport 200 (TryPullResourceReport 5 w) = TryPullResourceReport 200 w.
Proof.
  intros w.
  assert (5 <= 200)%Z as Hle by lia.
  split; [exact Hle|].
  exact (later_scan_absorbs_earlier_scan 5 200 w Hle).
Defined.

(** ** Further invariants of the poller *)

(** X6.  In every reachable world [inflight_pulls_] is the number of
    pulls in flight: the callbacks that were not invoked yet plus the
    posted [NodeResourceReportReceived] that did not run yet.  So the
    decrement of a posted handler never wraps below zero. *)
Theorem inflight_pulls_counts_open_pulls w :
  reachable w →
  inflight_pulls_ w =
    Z.of_nat (length (pending_callbacks w)
              + length (received_states (polling_service_ w))) ∧
  (∀ j p need_full_report now,
     polling_service_ w !! j = Some (TaskReceived p need_full_report) →
     (0 < inflight_pulls_ w)%Z ∧
     inflight_pulls_ (NodeResourceReportReceived p need_full_report now (take_posted j w))
       = (inflight_pulls_ w - 1)%Z).
Proof.
  intros Hreach. destruct (reachable_Inv _ Hreach) as [Hmax Hcount Hbound _ _].
  unfold inflight_states in Hcount. rewrite length_app in Hcount.
  split; [done|]. intros j p b now Hj.
  pose proof (received_states_delete_Received _ _ _ _ Hj) as Hperm.
  assert (0 < inflight_pulls_ w)%Z as Hpos.
  { rewrite Hcount, Hperm. simpl. lia. }
  split; [done|]. simpl. apply uint64_wrap_small. unfold is_uint64 in *. lia.
Qed.

Lemma inflight_pulls_counts_open_pulls_witness :
  let w := world_after (GcsResourceReportPoller 2 100) removed_while_in_flight in
  reachable w ∧
  inflight_pulls_ w =
    Z.of_nat (length (pending_callbacks w)
              + length (received_states (polling_service_ w))) ∧
  (∀ j p need_full_report now,
     polling_service_ w !! j = Some (TaskReceived p need_full_report) →
     (0 < inflight_pulls_ w)%Z ∧
     inflight_pulls_ (NodeResourceReportReceived p need_full_report now (take_posted j w))
       = (inflight_pulls_ w - 1)%Z).
Proof.
  intros w.
  assert (reachable w) as Hreach.
  { apply (reachable_run 2 100 removed_while_in_flight); [unfold is_uint64; lia|].
    vm_compute. reflexivity. }
  split; [exact Hreach|].
  exact (inflight_pulls_counts_open_pulls w Hreach).
Defined.

(** X7.  A registered node is never lost, whatever the events (a node
    added again while an old entry of it is around included): the state
    that [nodes_] has for it is a state of that node, and it is held in
    one place, the queue or a pull in flight. *)
Theorem registered_node_is_scheduled w id p :
  reachable w →
  nodes_ w !! id = Some p →
  node_id (store w !!! p) = id ∧
  p < length (store w) ∧
  length (filter (λ q, q = p) (to_pull_queue_ w))
    + length (filter (λ q, q = p) (inflight_states w)) = 1.
Proof.
  intros Hreach Hp.
  assert (Inv w ∧ registered_held w) as [HI Hreg].
  { destruct Hreach as (max & period & history & Hmax & Hrun).
    pose proof (Inv_init max period Hmax) as HI0. split.
    - by eapply run_Inv.
    - eapply run_registered_held; [exact HI0| |exact Hrun].
      intros id' p'. simpl. by rewrite lookup_empty. }
  destruct (Hreg _ _ Hp) as [Hid Hin].
  pose proof (inv_valid _ HI) as Hvalid. rewrite Forall_forall in Hvalid.
  split_and!; [done|by apply Hvalid|].
  rewrite <- length_app, <- filter_app. fold (queued_or_inflight w).
  rewrite (NoDup_all_equal (filter (λ q, q = p) (queued_or_inflight w)) p); [done| | |].
  - apply NoDup_filter, HI.
  - by apply list_elem_of_filter.
  - by intros q [-> _]%list_elem_of_filter.
Qed.

Lemma registered_node_is_scheduled_witness :
  let w := world_after (GcsResourceReportPoller 2 100) added_again in
  reachable w ∧
  nodes_ w !! "a" = Some 1 ∧
  node_id (store w !!! 1) = "a" ∧
  1 < length (store w) ∧
  length (filter (λ q, q = 1) (to_pull_queue_ w))
    + length (filter (λ q, q = 1) (inflight_states w)) = 1.
Proof.
  intros w.
  assert (reachable w) as Hreach.
  { apply (reachable_run 2 100 added_again); [unfold is_uint64; lia|].
    vm_compute. reflexivity. }
  assert (nodes_ w !! "a" = Some 1) as Hp by (vm_compute; reflexivity).
  split; [exact Hreach|]. split; [exact Hp|].
  exact (registered_node_is_scheduled w "a" 1 Hreach Hp).
Defined.

(** X8.  Only a scan calls [request_report_], and only for an entry it
    pops: every request of a step is made while the ticker or a posted
    [TryPullResourceReport] runs, for a state that was queued, whose node
    is registered at that moment and whose [next_pull_time] is not after
    the clock reading; the state then waits for its callback and is
    queued no more.  Membership events, replies and posted
    [NodeResourceReportReceived] make no request. *)
Theorem requests_come_from_scans w e w1 r :
  reachable w →
  step w e = Ok w1 →
  r ∈ new_requests w w1 →
  (∃ now, e = Tick now ∨
          ∃ k, e = RunPosted k now ∧ polling_service_ w !! k = Some TaskTryPull) ∧
  (∃ now, clock_reading e = Some now ∧
          (next_pull_time (store w !!! req_state r) <= now)%Z) ∧
  r = request_of w (req_state r) ∧
  req_state r ∈ to_pull_queue_ w ∧
  registered w (req_state r) ∧
  req_state r ∈ pending_callbacks w1 ∧
  req_state r ∉ to_pull_queue_ w1.
Proof.
  intros Hreach Hstep Hr. pose proof (reachable_Inv _ Hreach) as HI.
  pose proof (step_Inv _ _ _ Hstep HI) as HI1.
  destruct (step_summary _ _ _ HI Hstep) as [(Hquiet & _)|Hscan].
  { unfold new_requests in Hr. rewrite Hquiet, drop_all in Hr.
    by apply elem_of_nil in Hr. }
  destruct Hscan as (now & popped & Hclock & Hq & Hs & Hdue & Hreq & Hheld).
  rewrite (new_requests_app _ _ _ Hreq) in Hr.
  apply list_elem_of_fmap in Hr as (q & -> & [Hreg Hin]%list_elem_of_filter).
  simpl. rewrite Forall_forall in Hdue.
  assert (q ∈ queued_or_inflight w1) as Hq1.
  { rewrite Hheld, !elem_of_app. right; left. by apply list_elem_of_filter. }
  assert (q ∉ to_pull_queue_ w1) as Hnot.
  { pose proof (inv_nodup _ HI) as Hnd. unfold queued_or_inflight in Hnd.
    rewrite Hq in Hnd. apply NoDup_app in Hnd as (Hnd & _ & _).
    apply NoDup_app in Hnd as (_ & Hdisj & _). by apply Hdisj. }
  split_and!; try done.
  - exists now. destruct e as [info|info|t|k status reply|k t]; try done.
    + left. simpl in Hclock. congruence.
    + right. simpl in Hclock. injection Hclock as ->. exists k. split; [done|].
      simpl in Hstep.
      destruct (polling_service_ w !! k) as [[|state b]|] eqn:Hk; [done| |].
      * exfalso. injection Hstep as <-.
        destruct (NodeResourceReportReceived_summary w k state b now HI Hk)
          as (_ & _ & _ & _ & _ & Hsame & _).
        rewrite Hsame in Hreq. apply (f_equal length) in Hreq.
        rewrite length_app, length_fmap in Hreq.
        assert (q ∈ filter (registered w) popped) as Hqf
          by by apply list_elem_of_filter.
        destruct (filter (registered w) popped); [by apply elem_of_nil in Hqf|].
        simpl in Hreq. lia.
      * exfalso. injection Hstep as <-.
        apply (f_equal length) in Hreq. rewrite length_app, length_fmap in Hreq.
        assert (q ∈ filter (registered w) popped) as Hqf
          by by apply list_elem_of_filter.
        destruct (filter (registered w) popped); [by apply elem_of_nil in Hqf|].
        simpl in Hreq. lia.
  - exists now. split; [done|]. by apply Hdue.
  - rewrite Hq. apply elem_of_app. by left.
  - pose proof (inv_nodup _ HI1) as Hnd1. unfold queued_or_inflight in Hq1.
    apply elem_of_app in Hq1 as [?|Hq1]; [done|].
    unfold inflight_states in Hq1. apply elem_of_app in Hq1 as [?|Hq1]; [done|].
    exfalso.
    (* a posted handler of [q] was posted before the step: [q] was in flight *)
    assert (received_states (polling_service_ w1) ⊆ received_states (polling_service_ w))
      as Hsub.
    { destruct e as [info|info|t|k status reply|k t]; try done.
      - simpl in Hstep. injection Hstep as <-.
        destruct (TryPullResourceReport_scanned t w (inv_max _ HI)) as [l []].
        { rewrite (inv_count _ HI). lia. }
        by rewrite scan_posted0.
      - simpl in Hstep.
        destruct (polling_service_ w !! k) as [[|state b]|] eqn:Hk.
        + injection Hstep as <-. simpl.
          destruct (TryPullResourceReport_scanned t (take_posted k w)) as [l []].
          { apply HI. } { simpl. rewrite (inv_count _ HI). lia. }
          rewrite scan_posted0. simpl.
          by rewrite (received_states_delete_TryPull _ _ Hk).
        + injection Hstep as <-. simpl.
          rewrite received_states_app, app_nil_r.
          rewrite (received_states_delete_Received _ _ _ _ Hk).
          intros x Hx. by right.
        + by injection Hstep as <-. }
    pose proof (inv_nodup _ HI) as Hnd. unfold queued_or_inflight in Hnd.
    apply NoDup_app in Hnd as (_ & Hdisj & _).
    apply (Hdisj q).
    + rewrite Hq. apply elem_of_app. by left.
    + unfold inflight_states. apply elem_of_app. right. by apply Hsub.
Qed.

Lemma requests_come_from_scans_witness :
  let w := world_after (GcsResourceReportPoller 2 100) [NodeAdded node_a] in
  let w1 := TryPullResourceReport 5 w in
  let r := request_of w 0 in
  reachable w ∧
  step w (Tick 5) = Ok w1 ∧
  r ∈ new_requests w w1 ∧
  (∃ now, Tick 5 = Tick now ∨
          ∃ k, Tick 5 = RunPosted k now ∧ polling_service_ w !! k = Some TaskTryPull) ∧
  (∃ now, clock_reading (Tick 5) = Some now ∧
          (next_pull_time (store w !!! req_state r) <= now)%Z) ∧
  r = request_of w (req_state r) ∧
  req_state r ∈ to_pull_queue_ w ∧
  registered w (req_state r) ∧
  req_state r ∈ pending_callbacks w1 ∧
  req_state r ∉ to_pull_queue_ w1.
Proof.
  intros w w1 r.
  assert (reachable w) as Hreach.
  { apply (reachable_run 2 100 [NodeAdded node_a]); [unfold is_uint64; lia|].
    vm_compute. reflexivity. }
  assert (step w (Tick 5) = Ok w1) as Hstep by reflexivity.
  assert (r ∈ new_requests w w1) as Hr.
  { assert (new_requests w w1 = [r]) as -> by (vm_compute; reflexivity).
    apply list_elem_of_here. }
  split; [exact Hreach|]. split; [exact Hstep|]. split; [exact Hr|].
  exact (requests_come_from_scans w (Tick 5) w1 r Hreach Hstep Hr).
Defined.

(** X9.  A state keeps its node id and its address: whatever happens
    after it was made, only its [next_pull_time] is written. *)
Theorem state_identity_is_stable w events w' p :
  reachable w →
  run w events = Ok w' →
  p < length (store w) →
  node_id (store w' !!! p) = node_id (store w !!! p) ∧
  address (store w' !!! p) = address (store w !!! p).
Proof.
  intros Hreach Hrun Hp.
  destruct (run_store_fields _ _ _ (reachable_Inv _ Hreach) Hrun) as (_ & Hsame & _).
  exact (Hsame p Hp).
Qed.

Lemma state_identity_is_stable_witness :
  let w := world_after (GcsResourceReportPoller 2 100) pull_open in
  let w' := world_after w [Reply 0 (StatusError "IOError: timed out") report_a;
                           RunPosted 1 9; NodeRemoved node_a] in
  reachable w ∧
  run w [Reply 0 (StatusError "IOError: timed out") report_a;
         RunPosted 1 9; NodeRemoved node_a] = Ok w' ∧
  0 < length (store w) ∧
  node_id (store w' !!! 0) = node_id (store w !!! 0) ∧
  address (store w' !!! 0) = address (store w !!! 0).
Proof.
  intros w w'.
  assert (reachable w) as Hreach.
  { apply (reachable_run 2 100 pull_open); [unfold is_uint64; lia|].
    vm_compute. reflexivity. }
  assert (run w [Reply 0 (StatusError "IOError: timed out") report_a;
                 RunPosted 1 9; NodeRemoved node_a] = Ok w') as Hrun
    by (vm_compute; reflexivity).
  assert (0 < length (store w)) as Hp by (vm_compute; lia).
  split; [exact Hreach|]. split; [exact Hrun|]. split; [exact Hp|].
  exact (state_identity_is_stable w _ w' 0 Hreach Hrun Hp).
Defined.

(** X10.  Every request the poller has made went to the node of the state
    it was made for: it carries the address that [HandleNodeAdded] built
    when the state was made, and the raylet id of that address is the node
    id of the state. *)
Theorem requests_carry_the_node_address w r :
  reachable w →
  r ∈ request_report_calls w →
  req_state r < length (store w) ∧
  req_address r = address (store w !!! req_state r) ∧
  FromBinary (rpc.raylet_id (req_address r)) = node_id (store w !!! req_state r).
Proof.
  intros Hreach Hr. destruct (reachable_addressed _ Hreach) as [Hwf Hm].
  rewrite Forall_forall in Hm. destruct (Hm r Hr) as [Hlt Haddr].
  split_and!; [done|done|]. rewrite Haddr.
  rewrite Forall_forall in Hwf. apply Hwf. by apply list_elem_of_lookup_total_2.
Qed.

Lemma requests_carry_the_node_address_witness :
  let w := world_after (GcsResourceReportPoller 2 100) both_pulled in
  let r := {| req_state := 0;
              req_address := rpc.Build_Address "a" "10.0.0.1" 7001;
              req_initial_report := true |} in
  reachable w ∧
  r ∈ request_report_calls w ∧
  req_state r < length (store w) ∧
  req_address r = address (store w !!! req_state r) ∧
  FromBinary (rpc.raylet_id (req_address r)) = node_id (store w !!! req_state r).
Proof.
  intros w r.
  assert (reachable w) as Hreach.
  { apply (reachable_run 2 100 both_pulled); [unfold is_uint64; lia|].
    vm_compute. reflexivity. }
  assert (r ∈ request_report_calls w) as Hr.
  { assert (request_report_calls w = [request_of w 1; r]) as ->
      by (vm_compute; reflexivity).
    apply list_elem_of_further, list_elem_of_here. }
  split; [exact Hreach|]. split; [exact Hr|].
  exact (requests_carry_the_node_address w r Hreach Hr).
Defined.

(** X11.  A node that is not registered is not contacted: from a world
    in which the node id is not in [nodes_] (after [HandleNodeRemoved],
    say), no request goes to that node as long as it is not added again,
    whatever entries of it are still queued or in flight. *)
Theorem unregistered_node_is_not_contacted w id events w' :
  reachable w →
  nodes_ w !! id = None →
  Forall (λ e, ¬ adds id e) events →
  run w events = Ok w' →
  Forall (λ r, FromBinary (rpc.raylet_id (req_address r)) ≠ id) (new_requests w w').
Proof.
  intros Hreach. pose proof (reachable_Inv _ Hreach) as HI.
  destruct (reachable_addressed _ Hreach) as [Hwf _]. clear Hreach.
  revert w HI Hwf. induction events as [|e events IH]; intros w HI Hwf Hnone Hadds; simpl.
  - intros [= <-]. unfold new_requests. by rewrite drop_all.
  - destruct (step w e) as [w1|] eqn:Hstep; [|done]. intros Hrun.
    apply Forall_cons in Hadds as [Hadd Hadds].
    rewrite (new_requests_split _ _ _ _ _ HI Hstep Hrun).
    pose proof (step_Inv _ _ _ Hstep HI) as HI1.
    destruct (step_store_fields _ _ _ HI Hstep) as (_ & _ & Hwf1).
    apply Forall_app. split.
    + destruct (step_summary _ _ _ HI Hstep) as [(Hr & _)|Hscan].
      { unfold new_requests. by rewrite Hr, drop_all. }
      destruct Hscan as (now & popped & _ & Hq & _ & _ & Hreq & _).
      rewrite (new_requests_app _ _ _ Hreq).
      apply Forall_fmap, Forall_forall. intros q [Hreg Hin]%list_elem_of_filter.
      simpl. intros Heq.
      assert (q < length (store w)) as Hlt.
      { pose proof (inv_valid _ HI) as Hvalid. rewrite Forall_forall in Hvalid.
        apply Hvalid. unfold queued_or_inflight. rewrite Hq, !elem_of_app. auto. }
      rewrite Forall_forall in Hwf.
      pose proof (Hwf (store w !!! q) (list_elem_of_lookup_total_2 _ _ Hlt)) as Hq_wf.
      unfold well_addressed in Hq_wf. unfold registered, state_node in Hreg.
      rewrite <- Hq_wf, Heq, Hnone in Hreg. by destruct Hreg.
    + exact (IH w1 HI1 (Hwf1 Hwf) (step_unregistered _ _ _ _ HI Hstep Hadd Hnone)
               Hadds Hrun).
Qed.

Lemma unregistered_node_is_not_contacted_witness :
  let w := world_after (GcsResourceReportPoller 2 100) removed_while_queued in
  reachable w ∧
  nodes_ w !! "a" = None ∧
  Forall (λ e, ¬ adds "a" e) [Tick 5] ∧
  run w [Tick 5] = Ok (world_after w [Tick 5]) ∧
  Forall (λ r, FromBinary (rpc.raylet_id (req_address r)) ≠ "a")
    (new_requests w (world_after w [Tick 5])).
Proof.
  intros w.
  assert (reachable w) as Hreach.
  { apply (reachable_run 2 100 removed_while_queued); [unfold is_uint64; lia|].
    vm_compute. reflexivity. }
  assert (nodes_ w !! "a" = None) as Hnone by (vm_compute; reflexivity).
  assert (Forall (λ e, ¬ adds "a" e) [Tick 5]) as Hadds.
  { constructor; [|constructor]. simpl. tauto. }
  assert (run w [Tick 5] = Ok (world_after w [Tick 5])) as Hrun
    by (vm_compute; reflexivity).
  split; [exact Hreach|]. split; [exact Hnone|]. split; [exact Hadds|].
  split; [exact Hrun|].
  exact (unregistered_node_is_not_contacted w "a" [Tick 5] _ Hreach Hnone Hadds Hrun).
Defined.

(** ** Further properties of the membership handlers *)

(** X12.  [HandleNodeRemoved] never fails: the check that follows the
    erase always passes.  It takes the node id out of [nodes_] and touches
    nothing else: the queue, the pulls in flight and the states stay, an
    entry of the node included. *)
Theorem HandleNodeRemoved_only_unregisters node_info w :
  ∃ w',
    HandleNodeRemoved node_info w = Ok w' ∧
    nodes_ w' !! FromBinary (rpc.node_id node_info) = None ∧
    (∀ id, id ≠ FromBinary (rpc.node_id node_info) → nodes_ w' !! id = nodes_ w !! id) ∧
    to_pull_queue_ w' = to_pull_queue_ w ∧
    inflight_pulls_ w' = inflight_pulls_ w ∧
    store w' = store w ∧
    polling_service_ w' = polling_service_ w ∧
    pending_callbacks w' = pending_callbacks w ∧
    request_report_calls w' = request_report_calls w.
Proof.
  destruct (HandleNodeRemoved_Ok node_info w) as (w' & Hrem & Hnodes & Hrest).
  exists w'. split; [done|]. rewrite Hnodes. split_and!; try apply Hrest.
  - apply lookup_delete_eq.
  - intros id Hne. by apply lookup_delete_ne.
Qed.

(** X13.  A node that was removed can be added again at once, in any
    world: [HandleNodeAdded] passes its check, makes a state of its own
    with [next_pull_time] unset and pushes it in front of whatever is
    queued, an entry left by the earlier registration included. *)
Theorem removed_node_can_be_added_again node_info w :
  ∃ w1 w2,
    HandleNodeRemoved node_info w = Ok w1 ∧
    HandleNodeAdded node_info w1 = Ok w2 ∧
    nodes_ w2 !! FromBinary (rpc.node_id node_info) = Some (length (store w)) ∧
    store w2 = store w ++ [new_pull_state node_info] ∧
    to_pull_queue_ w2 = length (store w) :: to_pull_queue_ w.
Proof.
  destruct (HandleNodeRemoved_Ok node_info w)
    as (w1 & Hrem & Hdel & Hq & _ & Hs & _).
  assert (nodes_ w1 !! FromBinary (rpc.node_id node_info) = None) as Hnone
    by (rewrite Hdel; apply lookup_delete_eq).
  destruct (HandleNodeAdded_unregistered node_info w1 Hnone) as [w2 Hadd].
  exists w1, w2. split; [done|]. split; [done|].
  destruct (HandleNodeAdded_Ok _ _ _ Hadd) as (_ & -> & -> & -> & _).
  rewrite Hs, Hq. split_and!; try done. apply lookup_insert_eq.
Qed.

(** X14.  A node id is registered once: after [HandleNodeAdded] has
    registered a node, adding a node with the same id fails fatally,
    whatever address the second message gives, until the node is
    removed. *)
Theorem node_added_twice_is_fatal node_info node_info' w w1 :
  HandleNodeAdded node_info w = Ok w1 →
  rpc.node_id node_info' = rpc.node_id node_info →
  ∃ message, HandleNodeAdded node_info' w1 = Fatal message.
Proof.
  intros Hadd Heq. destruct (HandleNodeAdded_Ok _ _ _ Hadd) as (_ & Hnodes & _).
  eexists. apply HandleNodeAdded_registered.
  rewrite Heq, Hnodes, lookup_insert_eq. eauto.
Qed.

Lemma node_added_twice_is_fatal_witness :
  let w := GcsResourceReportPoller 2 100 in
  let w1 := world_after w [NodeAdded node_a] in
  let node_a' := {| rpc.node_id := "a"; rpc.node_manager_address := "10.0.0.9";
                    rpc.node_manager_port := 7009 |} in
  HandleNodeAdded node_a w = Ok w1 ∧
  rpc.node_id node_a' = rpc.node_id node_a ∧
  ∃ message, HandleNodeAdded node_a' w1 = Fatal message.
Proof.
  intros w w1 node_a'.
  assert (HandleNodeAdded node_a w = Ok w1) as Hadd by (vm_compute; reflexivity).
  assert (rpc.node_id node_a' = rpc.node_id node_a) as Heq by reflexivity.
  split; [exact Hadd|]. split; [exact Heq|].
  exact (node_added_twice_is_fatal node_a node_a' w w1 Hadd Heq).
Defined.

(** X15.  [Initialize] fails fatally exactly when the snapshot names a
    node id twice or a node id that is registered already.  Otherwise it
    makes one state per node, all with [next_pull_time] unset, registers
    every node with its state, posts one scan per node, and leaves the
    queue with the nodes of the snapshot in front, the last one visited
    first. *)
Theorem Initialize_registers_a_fresh_snapshot nodes w :
  match Initialize nodes w with
  | Fatal _ => ¬ fresh_snapshot nodes w
  | Ok w' =>
      fresh_snapshot nodes w ∧
      store w' = store w ++ (new_pull_state <$> nodes) ∧
      to_pull_queue_ w' =
        reverse (seq (length (store w)) (length nodes)) ++ to_pull_queue_ w ∧
      (∀ i node_info, nodes !! i = Some node_info →
         nodes_ w' !! FromBinary (rpc.node_id node_info) = Some (length (store w) + i)) ∧
      (∀ id, id ∉ snapshot_ids nodes → nodes_ w' !! id = nodes_ w !! id) ∧
      polling_service_ w' = polling_service_ w ++ replicate (length nodes) TaskTryPull ∧
      inflight_pulls_ w' = inflight_pulls_ w ∧
      request_report_calls w' = request_report_calls w
  end.
Proof.
  revert w. induction nodes as [|node_info nodes IH]; intros w.
  { simpl. unfold fresh_snapshot, snapshot_ids. simpl.
    rewrite !app_nil_r. split_and!; try done. constructor. }
  simpl.
  destruct (HandleNodeAdded node_info w) as [w1|message] eqn:Hadd.
  - destruct (HandleNodeAdded_Ok _ _ _ Hadd)
      as (Hnone & Hnodes & Hstore & Hqueue & Hposted & Hinflight & _ & Hreq & _).
    specialize (IH w1).
    assert (∀ id, id ≠ FromBinary (rpc.node_id node_info) →
              nodes_ w1 !! id = nodes_ w !! id) as Hother.
    { intros id Hne. rewrite Hnodes. by apply lookup_insert_ne. }
    assert (nodes_ w1 !! FromBinary (rpc.node_id node_info) = Some (length (store w)))
      as Hself by (rewrite Hnodes; apply lookup_insert_eq).
    destruct (Initialize nodes w1) as [w'|message'].
    + destruct IH as ([Hnd Hunreg] & Hs & Hq & Hreg & Hrest & Hp & Hi & Hr).
      rewrite Forall_forall in Hunreg.
      assert (FromBinary (rpc.node_id node_info) ∉ snapshot_ids nodes) as Hnotin.
      { intros Hin. apply Hunreg in Hin.
        by pose proof (eq_trans (eq_sym Hself) Hin). }
      split_and!.
      * split; unfold snapshot_ids; simpl.
        -- by apply NoDup_cons.
        -- constructor; [done|]. apply Forall_forall. intros id Hin.
           rewrite <- Hother; [by apply Hunreg|]. by intros ->.
      * rewrite Hs, Hstore, <- app_assoc. done.
      * rewrite Hq, Hstore, Hqueue, length_app. simpl.
        rewrite Nat.add_1_r, reverse_cons, <- app_assoc. done.
      * intros [|i] info Hi'; simpl in Hi'.
        -- injection Hi' as <-. rewrite Hrest by done. by rewrite Nat.add_0_r.
        -- rewrite (Hreg i info Hi'), Hstore, length_app. simpl. f_equal. lia.
      * intros id Hid. unfold snapshot_ids in Hid. simpl in Hid.
        apply not_elem_of_cons in Hid as [Hne Hid].
        rewrite Hrest by done. by apply Hother.
      * rewrite Hp, Hposted, <- app_assoc. done.
      * by rewrite Hi.
      * by rewrite Hr.
    + intros [Hnd Hunreg]. apply IH. unfold snapshot_ids in *. simpl in *.
      apply NoDup_cons in Hnd as [Hnotin Hnd].
      apply Forall_cons in Hunreg as [_ Hunreg].
      split; [done|]. apply Forall_forall. intros id Hin.
      rewrite Forall_forall in Hunreg. rewrite Hother; [by apply Hunreg|].
      by intros ->.
  - intros [_ Hunreg]. unfold snapshot_ids in Hunreg. simpl in Hunreg.
    apply Forall_cons in Hunreg as [Hnone _].
    destruct (HandleNodeAdded_unregistered node_info w Hnone) as [w1 Hok]. congruence.
Qed.

(** X16.  A node that is added while there is budget is pulled by the
    next scan before anything else, whatever is queued: the first request
    of that scan goes to the address of the new node and asks for a full
    report.  The clock reading only has to be at least the unset value. *)
Theorem added_node_is_pulled_first node_info w w1 now :
  reachable w →
  HandleNodeAdded node_info w = Ok w1 →
  (inflight_pulls_ w < max_concurrent_pulls_ w)%Z →
  (unset <= now)%Z →
  head (new_requests w1 (TryPullResourceReport now w1)) =
    Some {| req_state := length (store w);
            req_address := address (new_pull_state node_info);
            req_initial_report := true |}.
Proof.
  intros Hreach Hadd Hbudget Hnow. pose proof (reachable_Inv _ Hreach) as HI.
  pose proof (HandleNodeAdded_Inv _ _ _ Hadd HI) as HI1.
  destruct (HandleNodeAdded_Ok _ _ _ Hadd)
    as (Hnone & Hnodes & Hstore & Hqueue & _ & Hinflight & Hmax & _).
  assert (store w1 !!! (length (store w) : ptr) = new_pull_state node_info) as Hst.
  { by rewrite Hstore, lookup_total_app_r, Nat.sub_diag by lia. }
  assert (TryPull_iteration now w1
            = Some (PullResourceReport (length (store w)) (pop_front w1))) as Hit.
  { unfold TryPull_iteration. rewrite Hqueue, Hinflight, Hmax.
    destruct (Z.ltb_spec (inflight_pulls_ w) (max_concurrent_pulls_ w)); [|lia].
    rewrite Hst. simpl next_pull_time.
    destruct (Z.ltb_spec now unset); [lia|].
    cbn [pop_front nodes_ store]. rewrite Hst. simpl node_id.
    assert (count (nodes_ w1) (FromBinary (rpc.node_id node_info)) = true) as ->.
    { apply count_true. rewrite Hnodes, lookup_insert_eq. eauto. }
    done. }
  unfold TryPullResourceReport. rewrite Hqueue. simpl TryPull_loop. rewrite Hit.
  set (w2 := PullResourceReport (length (store w)) (pop_front w1)).
  destruct (TryPull_loop_scanned (length (to_pull_queue_ w)) now w2) as [popped Hs].
  { apply HI1. }
  { simpl. unfold uint64_wrap. apply Z.mod_pos_bound. lia. }
  rewrite (new_requests_app w1 _
             ([request_of (pop_front w1) (length (store w))]
                ++ (request_of w2 <$> filter (registered w2) popped))).
  - simpl. unfold request_of. simpl. by rewrite Hst.
  - rewrite (scan_requests _ _ _ _ Hs). unfold w2 at 1. simpl.
    by rewrite <- app_assoc.
Qed.

Lemma added_node_is_pulled_first_witness :
  let w := world_after (GcsResourceReportPoller 2 100) pull_open in
  let w1 := world_after w [NodeAdded node_b] in
  reachable w ∧
  HandleNodeAdded node_b w = Ok w1 ∧
  (inflight_pulls_ w < max_concurrent_pulls_ w)%Z ∧
  (unset <= 6)%Z ∧
  head (new_requests w1 (TryPullResourceReport 6 w1)) =
    Some {| req_state := length (store w);
            req_address := address (new_pull_state node_b);
            req_initial_report := true |}.
Proof.
  intros w w1.
  assert (reachable w) as Hreach.
  { apply (reachable_run 2 100 pull_open); [unfold is_uint64; lia|].
    vm_compute. reflexivity. }
  assert (HandleNodeAdded node_b w = Ok w1) as Hadd by (vm_compute; reflexivity).
  assert (inflight_pulls_ w < max_concurrent_pulls_ w)%Z as Hbudget
    by (vm_compute; reflexivity).
  assert (unset <= 6)%Z as Hnow by (vm_compute; discriminate).
  split; [exact Hreach|]. split; [exact Hadd|]. split; [exact Hbudget|].
  split; [exact Hnow|].
  exact (added_node_is_pulled_first node_b w w1 6 Hreach Hadd Hbudget Hnow).
Defined.

(** X17.  A pull that failed is due again at once: nothing delays it.
    When its handler has run and no other entry is queued, the next scan
    pulls the node again, asking for a full report, whatever little time
    has passed, as long as the node is still registered. *)
Theorem failed_pull_is_retried_by_the_next_scan w j p now now' :
  reachable w →
  polling_service_ w !! j = Some (TaskReceived p true) →
  to_pull_queue_ w = [] →
  registered w p →
  (unset <= now')%Z →
  head (new_requests (NodeResourceReportReceived p true now (take_posted j w))
          (TryPullResourceReport now'
             (NodeResourceReportReceived p true now (take_posted j w)))) =
    Some {| req_state := p;
            req_address := address (store w !!! p);
            req_initial_report := true |}.
Proof.
  intros Hreach Hj Hq Hreg Hnow. pose proof (reachable_Inv _ Hreach) as HI.
  destruct (NodeResourceReportReceived_summary w j p true now HI Hj)
    as (_ & HI2 & Hq2 & Hnext & Haddr & _).
  set (w2 := NodeResourceReportReceived p true now (take_posted j w)) in *.
  assert (inflight_pulls_ w2 < max_concurrent_pulls_ w2)%Z as Hbudget.
  { pose proof (received_states_delete_Received _ _ _ _ Hj) as Hperm.
    destruct HI as [Hmax Hcount Hbound _ _]. unfold inflight_states in Hcount.
    rewrite length_app, Hperm in Hcount. simpl in Hcount.
    unfold w2. simpl. rewrite uint64_wrap_small; unfold is_uint64 in *; lia. }
  assert (registered w2 p) as Hreg2.
  { unfold registered, w2.
    rewrite NodeResourceReportReceived_state_node. exact Hreg. }
  rewrite Hq in Hq2. simpl in Hq2.
  rewrite (front_is_pulled_first now' w2 p [] HI2 Hq2 Hbudget); [|by rewrite Hnext|done].
  unfold request_of. rewrite Hnext, Haddr. done.
Qed.

Lemma failed_pull_is_retried_by_the_next_scan_witness :
  let w := world_after (GcsResourceReportPoller 2 100)
             (pull_open ++ [Reply 0 (StatusError "IOError: timed out") report_a]) in
  reachable w ∧
  polling_service_ w !! 1 = Some (TaskReceived 0 true) ∧
  to_pull_queue_ w = [] ∧
  registered w 0 ∧
  (unset <= 9)%Z ∧
  head (new_requests (NodeResourceReportReceived 0 true 9 (take_posted 1 w))
          (TryPullResourceReport 9
             (NodeResourceReportReceived 0 true 9 (take_posted 1 w)))) =
    Some {| req_state := 0;
            req_address := address (store w !!! 0);
            req_initial_report := true |}.
Proof.
  intros w.
  assert (reachable w) as Hreach.
  { apply (reachable_run 2 100
             (pull_open ++ [Reply 0 (StatusError "IOError: timed out") report_a]));
      [unfold is_uint64; lia|]. vm_compute. reflexivity. }
  assert (polling_service_ w !! 1 = Some (TaskReceived 0 true)) as Hj
    by (vm_compute; reflexivity).
  assert (to_pull_queue_ w = []) as Hq by (vm_compute; reflexivity).
  assert (registered w 0) as Hreg by (exists 0; vm_compute; reflexivity).
  assert (unset <= 9)%Z as Hnow by (vm_compute; discriminate).
  split; [exact Hreach|]. split; [exact Hj|]. split; [exact Hq|].
  split; [exact Hreg|]. split; [exact Hnow|].
  exact (failed_pull_is_retried_by_the_next_scan w 1 0 9 9 Hreach Hj Hq Hreg Hnow).
Defined.

(** ** Further properties of the reports *)

(** X18.  [handle_resource_report_] only ever gets what replies with
    status ok carried, in the order the replies came, each payload at most
    once: over any run, the reports handed over are a subsequence of the
    payloads of the ok replies of the run.  A failed or an unchanged reply
    hands nothing over, and neither does any other event. *)
Theorem reports_are_payloads_of_ok_replies w events w' :
  reachable w →
  run w events = Ok w' →
  ∃ l, handle_resource_report_calls w' = handle_resource_report_calls w ++ l ∧
       l `sublist_of` (omap ok_payload events).
Proof.
  intros Hreach. pose proof (reachable_Inv _ Hreach) as HI. clear Hreach.
  revert w HI. induction events as [|e events IH]; intros w HI; simpl run.
  - intros [= <-]. exists []. by rewrite app_nil_r.
  - destruct (step w e) as [w1|] eqn:Hstep; [|done]. intros Hrun.
    destruct (step_reports _ _ _ HI Hstep) as (l1 & Hl1 & Hsub1).
    destruct (IH w1 (step_Inv _ _ _ Hstep HI) Hrun) as (l2 & Hl2 & Hsub2).
    exists (l1 ++ l2). split.
    + by rewrite Hl2, Hl1, app_assoc.
    + change (e :: events) with ([e] ++ events).
      rewrite omap_app. by apply sublist_app.
Qed.

Lemma reports_are_payloads_of_ok_replies_witness :
  let w := world_after (GcsResourceReportPoller 2 100) both_pulled in
  let events := [Reply 0 StatusOK report_a;
                 Reply 0 (StatusError "Resources not changed") report_a] in
  reachable w ∧
  run w events = Ok (world_after w events) ∧
  ∃ l, handle_resource_report_calls (world_after w events)
         = handle_resource_report_calls w ++ l ∧
       l `sublist_of` (omap ok_payload events).
Proof.
  intros w events.
  assert (reachable w) as Hreach.
  { apply (reachable_run 2 100 both_pulled); [unfold is_uint64; lia|].
    vm_compute. reflexivity. }
  assert (run w events = Ok (world_after w events)) as Hrun
    by (vm_compute; reflexivity).
  split; [exact Hreach|]. split; [exact Hrun|].
  exact (reports_are_payloads_of_ok_replies w events _ Hreach Hrun).
Defined.

(** ** Properties of the pub/sub handler *)

(** X19.  A batch of subscriber commands ends fatally exactly when one
    of its commands holds neither an unsubscribe nor a subscribe message.
    Otherwise the publisher gets one call per command, in the order of the
    batch: an unregistration for an unsubscribe message, a registration
    for a subscribe message, for the channel of the command and the
    subscriber of the request, with no key when the key id is empty; then
    one reply with status ok is sent.  An empty batch is answered without
    any call. *)
Theorem command_batch_calls_the_publisher_in_order request h :
  match HandleGcsSubscriberCommandBatch request h with
  | Fatal _ =>
      ∃ command, command ∈ pubsub.commands request ∧
        has_unsubscribe_message command = false ∧
        has_subscribe_message command = false
  | Ok h' =>
      Forall (λ command, has_unsubscribe_message command = true ∨
                         has_subscribe_message command = true)
        (pubsub.commands request) ∧
      publisher_calls h' =
        publisher_calls h ++
          (call_for (pubsub.subscriber_id request) <$> pubsub.commands request) ∧
      sent_replies h' = sent_replies h ++ [StatusOK] ∧
      (∀ i command, pubsub.commands request !! i = Some command →
         publisher_calls h' !! (length (publisher_calls h) + i) =
           Some (call_for (pubsub.subscriber_id request) command) ∧
         (optional_key_id command = None ↔ pubsub.key_id command = ""))
  end.
Proof.
  unfold HandleGcsSubscriberCommandBatch.
  pose proof (handle_commands_calls (pubsub.subscriber_id request)
                (pubsub.commands request) h) as Hloop.
  destruct (handle_commands _ _ _) as [h'|message].
  - destruct Hloop as (Hall & Hcalls & Hreplies). simpl.
    split_and!.
    + eapply Forall_impl; [exact Hall|]. intros c Hc. simpl in Hc.
      unfold has_unsubscribe_message, has_subscribe_message.
      destruct (pubsub.command_message_one_of_case c); [by destruct Hc|auto|auto].
    + done.
    + by rewrite Hreplies.
    + intros i c Hi. split.
      * rewrite Hcalls, lookup_app_r by lia.
        replace (length (publisher_calls h) + i - length (publisher_calls h)) with i by lia.
        by rewrite list_lookup_fmap, Hi.
      * unfold optional_key_id. by destruct (pubsub.key_id c).
  - destruct Hloop as (c & Hin & Hc). exists c.
    unfold has_unsubscribe_message, has_subscribe_message. by rewrite Hc.
Qed.
